(** * rtsp-test-server: a shallow embedding of [Server.cpp]

    The daemon is one translation unit.  Its own logic is the configuration
    loader [LoadConfig], the signal handler [SignalHandler] and the start-up
    sequence in [main]; GLib, GStreamer, libconfig, spdlog and the C library
    are collaborators.  The calls made to them are recorded, in program
    order, in a trace of [event]s carried by the process state, and what they
    answer is read from a [world]. *)

From stdpp Require Import gmap strings list pretty.
From Stdlib Require Import ZArith Lia.

Open Scope Z_scope.

(** ** Text *)

Definition lbrace : Ascii.ascii := Ascii.ascii_of_nat 123.
Definition rbrace : Ascii.ascii := Ascii.ascii_of_nat 125.

(** The double-quote character, written with a backslash in the C++ literals. *)
Definition dquote : string := String (Ascii.ascii_of_nat 34) EmptyString.

(** [fmt::format] restricted to what the program uses: automatic replacement
    fields [{}], filled from the arguments left to right, and the two escapes
    of a doubled brace.  Any other brace, or a field with no argument left,
    makes fmt throw [format_error]: the result is [None].  Surplus arguments
    are ignored, as fmt does. *)
Module fmt.

Inductive arg :=
| a_int (i : Z)
| a_str (s : string).

Definition to_string (a : arg) : string :=
  match a with
  | a_int i => pretty i
  | a_str s => s
  end.

Fixpoint format (f : string) (args : list arg) : option string :=
  match f with
  | EmptyString => Some EmptyString
  | String c EmptyString =>
      if bool_decide (c = lbrace) || bool_decide (c = rbrace) then None
      else Some (String c EmptyString)
  | String c (String d rest as tl) =>
      if bool_decide (c = lbrace) then
        if bool_decide (d = rbrace) then
          match args with
          | a :: args' => (fun s => to_string a +:+ s) <$> format rest args'
          | [] => None
          end
        else if bool_decide (d = lbrace) then String lbrace <$> format rest args
        else None
      else if bool_decide (c = rbrace) then
        if bool_decide (d = rbrace) then String rbrace <$> format rest args
        else None
      else String c <$> format tl args
  end.

End fmt.

(** [std::to_string] on an integer. *)
Definition to_string (i : Z) : string := pretty i.

(** ** Signals *)

(** Signal numbers of [<csignal>] (Linux, the generic numbering). *)
Definition SIGINT : Z := 2.
Definition SIGILL : Z := 4.
Definition SIGABRT : Z := 6.
Definition SIGBUS : Z := 7.
Definition SIGFPE : Z := 8.
Definition SIGSEGV : Z := 11.
Definition SIGTERM : Z := 15.

(** What a signal table entry can hold.  [SignalHandler] is the only
    function the program ever installs. *)
Inductive sighandler :=
| SIG_DFL
| SIG_IGN
| handler_SignalHandler.

(** What the operating system does with a signal left at [SIG_DFL]
    (signal(7)); stopping and continuing do not change what the program
    observes and are folded into [act_ign]. *)
Inductive default_action := act_term | act_core | act_ign.

Definition sig_default (sig : Z) : default_action :=
  if bool_decide (sig ∈ [4; 6; 7; 8; 11; 3; 5; 24; 25; 31]) then act_core
  else if bool_decide (sig ∈ [17; 18; 19; 20; 21; 22; 23; 28]) then act_ign
  else act_term.

(** ** Collaborators *)

(** spdlog's levels, in the order of [spdlog::level::level_enum]. *)
Inductive level_enum := trace | debug | info | warn | err | critical | off.

Definition level_rank (l : level_enum) : Z :=
  match l with
  | trace => 0 | debug => 1 | info => 2 | warn => 3
  | err => 4 | critical => 5 | off => 6
  end.

Record logger := { logger_name : string; logger_level : level_enum }.

Definition should_log (lg : logger) (lvl : level_enum) : bool :=
  bool_decide (level_rank (logger_level lg) <= level_rank lvl).

Inductive GstRTSPTransportMode :=
| GST_RTSP_TRANSPORT_MODE_PLAY
| GST_RTSP_TRANSPORT_MODE_RECORD.

(** A media factory, as [gst_rtsp_media_factory_new] creates it and the
    setters fill it. *)
Record GstRTSPMediaFactory := {
  transport_mode : GstRTSPTransportMode;
  launch : option string;
  shared : bool
}.

Definition gst_rtsp_media_factory_new : GstRTSPMediaFactory :=
  {| transport_mode := GST_RTSP_TRANSPORT_MODE_PLAY; launch := None; shared := false |}.

Definition gst_rtsp_media_factory_set_transport_mode
    (f : GstRTSPMediaFactory) (m : GstRTSPTransportMode) : GstRTSPMediaFactory :=
  {| transport_mode := m; launch := launch f; shared := shared f |}.

Definition gst_rtsp_media_factory_set_launch
    (f : GstRTSPMediaFactory) (l : string) : GstRTSPMediaFactory :=
  {| transport_mode := transport_mode f; launch := Some l; shared := shared f |}.

Definition gst_rtsp_media_factory_set_shared
    (f : GstRTSPMediaFactory) (b : bool) : GstRTSPMediaFactory :=
  {| transport_mode := transport_mode f; launch := launch f; shared := b |}.

(** A pointer to an object of a collaborator: [None] is the null pointer. *)
Inductive GstRTSPServer := the_server.
Inductive GstRTSPMountPoints := the_mount_points.

(** A libconfig document: the settings of the root group. *)
Inductive setting :=
| s_int (i : Z)
| s_string (s : string)
| s_bool (b : bool).

Definition config_t := list (string * setting).

(** What [config_read_file] finds in a file: the parsed document, or the
    error text and line. *)
Inductive read_result :=
| read_ok (doc : config_t)
| read_error (text : string) (line : Z).

(** [config_lookup_int]: [CONFIG_TRUE] and the value when the setting exists
    and is an integer. *)
Fixpoint config_lookup_int (doc : config_t) (path : string) : option Z :=
  match doc with
  | [] => None
  | (k, v) :: doc' =>
      if bool_decide (k = path) then
        match v with s_int i => Some i | _ => None end
      else config_lookup_int doc' path
  end.

(** Everything the program reads from outside itself.  [ConfigDirs] is
    declared in ConfigHelpers.h, which is not part of the translation unit:
    the list it returns is taken as given. *)
Record world := {
  ConfigDirs : list string;
  g_file_test_is_regular : string -> bool;
  libconfig_parse : string -> read_result;
  strsignal : Z -> option string;
  gst_rtsp_server_new : option GstRTSPServer;
  gst_rtsp_mount_points_new : option GstRTSPMountPoints
}.

(** ** Process state and effects *)

Inductive event :=
| ev_log (lvl : level_enum) (line : string)
| ev_flush
| ev_signal (sig : Z) (h : sighandler)
| ev_raise (sig : Z)
| ev_file_test (path : string)
| ev_read_file (path : string)
| ev_setenv (name value : string)
| ev_gst_init
| ev_set_service (server : option GstRTSPServer) (service : string)
| ev_set_mount_points (server : option GstRTSPServer) (mounts : option GstRTSPMountPoints)
| ev_add_factory (mounts : option GstRTSPMountPoints) (path : string)
                 (factory : GstRTSPMediaFactory)
| ev_attach (server : option GstRTSPServer)
| ev_loop_run (loop : nat)
| ev_loop_quit (loop : nat).

(** The globals [Log] and [g_mainLoop], the [GMainLoop] objects on the heap
    (address to [is_running]), the signal table (no entry: [SIG_DFL]), the
    signals that are blocked and those that are pending, the environment and
    the trace. *)
Record process := {
  Log : option logger;
  g_mainLoop : option nat;
  main_loops : gmap nat bool;
  sigtable : gmap Z sighandler;
  sigmask : list Z;
  sigpending : list Z;
  environ : gmap string string;
  events : list event
}.

(** The process when [main] is entered: the globals are null, nothing is
    allocated, no handler is installed, no signal is blocked or pending;
    [env] is the inherited environment. *)
Definition process_start (env : gmap string string) : process :=
  {| Log := None; g_mainLoop := None; main_loops := ∅; sigtable := ∅;
     sigmask := []; sigpending := [];
     environ := env; events := [] |}.

Inductive outcome (A : Type) :=
| Ret (a : A) (p : process)
| Killed (sig : Z) (p : process)
| Fault (p : process)
| Threw (p : process)
| Blocked (p : process)
| Nested (p : process).

Arguments Ret {A} a p.
Arguments Killed {A} sig p.
Arguments Fault {A} p.
Arguments Threw {A} p.
Arguments Blocked {A} p.
Arguments Nested {A} p.

(** [Ret]: the call returned.  [Killed]: the process was terminated by the
    default action of a signal.  [Fault]: a null pointer was dereferenced.
    [Threw]: an exception left [main].  [Blocked]: [g_main_loop_run] has not
    returned.  [Nested]: the handler nesting budget was used up. *)
Definition M (A : Type) : Type := process -> outcome A.

Definition ret {A} (a : A) : M A := fun p => Ret a p.

Definition bind {A B} (m : M A) (k : A -> M B) : M B :=
  fun p =>
    match m p with
    | Ret a p' => k a p'
    | Killed sig p' => Killed sig p'
    | Fault p' => Fault p'
    | Threw p' => Threw p'
    | Blocked p' => Blocked p'
    | Nested p' => Nested p'
    end.

Notation "'let*' x ':=' m 'in' k" := (bind m (fun x => k))
  (at level 10, x name, m at level 100, k at level 200).
Notation "m ';;' k" := (bind m (fun _ => k))
  (at level 100, k at level 200, right associativity).

Definition with_events (p : process) (es : list event) : process :=
  {| Log := Log p; g_mainLoop := g_mainLoop p; main_loops := main_loops p;
     sigtable := sigtable p;
     sigmask := sigmask p; sigpending := sigpending p; environ := environ p; events := es |}.

Definition with_Log (p : process) (l : option logger) : process :=
  {| Log := l; g_mainLoop := g_mainLoop p; main_loops := main_loops p;
     sigtable := sigtable p;
     sigmask := sigmask p; sigpending := sigpending p; environ := environ p; events := events p |}.

Definition with_g_mainLoop (p : process) (l : option nat) : process :=
  {| Log := Log p; g_mainLoop := l; main_loops := main_loops p;
     sigtable := sigtable p;
     sigmask := sigmask p; sigpending := sigpending p; environ := environ p; events := events p |}.

Definition with_main_loops (p : process) (h : gmap nat bool) : process :=
  {| Log := Log p; g_mainLoop := g_mainLoop p; main_loops := h;
     sigtable := sigtable p;
     sigmask := sigmask p; sigpending := sigpending p; environ := environ p; events := events p |}.

Definition with_sigtable (p : process) (t : gmap Z sighandler) : process :=
  {| Log := Log p; g_mainLoop := g_mainLoop p; main_loops := main_loops p;
     sigtable := t;
     sigmask := sigmask p; sigpending := sigpending p; environ := environ p; events := events p |}.

Definition with_environ (p : process) (e : gmap string string) : process :=
  {| Log := Log p; g_mainLoop := g_mainLoop p; main_loops := main_loops p;
     sigtable := sigtable p;
     sigmask := sigmask p; sigpending := sigpending p; environ := e; events := events p |}.

Definition with_sigmask (p : process) (m : list Z) : process :=
  {| Log := Log p; g_mainLoop := g_mainLoop p; main_loops := main_loops p;
     sigtable := sigtable p;
     sigmask := m; sigpending := sigpending p; environ := environ p; events := events p |}.

Definition with_sigpending (p : process) (l : list Z) : process :=
  {| Log := Log p; g_mainLoop := g_mainLoop p; main_loops := main_loops p;
     sigtable := sigtable p;
     sigmask := sigmask p; sigpending := l; environ := environ p; events := events p |}.

Definition emit (e : event) : M unit :=
  fun p => Ret tt (with_events p (events p ++ [e])).

Definition gets {A} (f : process -> A) : M A := fun p => Ret (f p) p.

Fixpoint for_each {A} (l : list A) (body : A -> M unit) : M unit :=
  match l with
  | [] => ret tt
  | x :: l' => body x ;; for_each l' body
  end.

(** *** spdlog *)

(** [Log->info(...)], [Log->error(...)], [Log->critical(...)]: the global
    pointer is dereferenced; a message at or above the logger's level is
    formatted and written to the sink.  spdlog catches a formatting error and
    reports it on its own error channel, not on the sink. *)
Definition log_ (lvl : level_enum) (f : string) (args : list fmt.arg) : M unit :=
  fun p =>
    match Log p with
    | None => Fault p
    | Some lg =>
        if should_log lg lvl then
          match fmt.format f args with
          | Some line => emit (ev_log lvl line) p
          | None => Ret tt p
          end
        else Ret tt p
    end.

Definition log_flush : M unit :=
  fun p =>
    match Log p with
    | None => Fault p
    | Some _ => emit ev_flush p
    end.

(** *** Signals *)

Definition std_signal (sig : Z) (h : sighandler) : M unit :=
  fun p => emit (ev_signal sig h) (with_sigtable p (<[sig := h]> (sigtable p))).

(** The process takes a signal that is not blocked: the table entry
    decides.  [handler] is the code run for an entry that holds the program's
    handler; installed with [std::signal], it runs with its own signal added
    to the mask, and the mask is restored when it returns. *)
Definition dispatch (handler : Z -> M unit) (sig : Z) : M unit :=
  fun p =>
    match default SIG_DFL (sigtable p !! sig) with
    | SIG_DFL =>
        match sig_default sig with
        | act_ign => Ret tt p
        | act_term | act_core => Killed sig p
        end
    | SIG_IGN => Ret tt p
    | handler_SignalHandler =>
        let mask := sigmask p in
        ((fun q => Ret tt (with_sigmask q (sig :: mask))) ;;
         handler sig ;;
         (fun q => Ret tt (with_sigmask q mask))) p
    end.

Definition pend (sig : Z) (pending : list Z) : list Z :=
  if bool_decide (sig ∈ pending) then pending else pending ++ [sig].

(** The pending signals that are not blocked are taken, each once, in the
    order they became pending. *)
Definition take_pending (handler : Z -> M unit) : M unit :=
  fun p =>
    for_each (List.filter (fun s => negb (bool_decide (s ∈ sigmask p))) (sigpending p))
             (fun s =>
                (fun q => Ret tt (with_sigpending q
                            (List.filter (fun s' => negb (s' =? s)) (sigpending q)))) ;;
                dispatch handler s) p.

(** A signal is sent to the process.  A blocked signal becomes pending (a
    standard signal is pending at most once) and nothing else happens; an
    unblocked one is taken at once, and so are the signals left pending when
    that is done. *)
Definition deliver (handler : Z -> M unit) (sig : Z) : M unit :=
  fun p =>
    if bool_decide (sig ∈ sigmask p) then
      Ret tt (with_sigpending p (pend sig (sigpending p)))
    else (dispatch handler sig ;; take_pending handler) p.

(** [std::raise]: the signal is sent to the process itself.  Raised from its
    own handler the signal is blocked: the call returns and the signal stays
    pending until the handler has returned. *)
Definition std_raise (handler : Z -> M unit) (sig : Z) : M unit :=
  emit (ev_raise sig) ;; deliver handler sig.

(** *** GLib main loops *)

Definition g_main_loop_new : M nat :=
  fun p =>
    let a := fresh (dom (main_loops p)) in
    Ret a (with_main_loops p (<[a := false]> (main_loops p))).

Definition g_main_loop_quit (loop : nat) : M unit :=
  fun p =>
    emit (ev_loop_quit loop)
         (with_main_loops p (alter (fun _ => false) loop (main_loops p))).

(** ** The program *)

(** [setenv]: with [overwrite = 0] a value already set is kept. *)
Definition setenv (name value : string) (overwrite : bool) : M unit :=
  fun p =>
    emit (ev_setenv name value)
         (match environ p !! name with
          | Some _ =>
              if overwrite then with_environ p (<[name := value]> (environ p)) else p
          | None => with_environ p (<[name := value]> (environ p))
          end).

Definition DisableVaapi : M unit :=
  setenv "LIBVA_DRIVER_NAME" "null" false.

Definition TEST : string := "test".

(** [SignalHandler].  [depth] bounds how many invocations of the handler may
    be active at once: [std::raise] runs the handler again when the table
    still holds it and the signal is not blocked. *)
Fixpoint SignalHandler (w : world) (depth : nat) (signal : Z) (p : process)
  : outcome unit :=
  match depth with
  | O => Nested p
  | S depth' =>
      (let signalName := strsignal w signal in
       if (signal =? SIGSEGV) || (signal =? SIGABRT) || (signal =? SIGFPE)
          || (signal =? SIGBUS) || (signal =? SIGILL) then
         (let* l := gets Log in
          match l with
          | Some _ =>
              log_ critical "Server crashed with signal {} ({})"
                   [fmt.a_int signal; fmt.a_str (default "unknown" signalName)] ;;
              log_flush
          | None => ret tt
          end) ;;
         std_signal signal SIG_DFL ;;
         std_raise (SignalHandler w depth') signal
       else if (signal =? SIGINT) || (signal =? SIGTERM) then
         (let* l := gets Log in
          match l with
          | Some _ =>
              log_ info "Received signal {} ({}), shutting down..."
                   [fmt.a_int signal; fmt.a_str (default "unknown" signalName)]
          | None => ret tt
          end) ;;
         let* loop := gets g_mainLoop in
         match loop with
         | Some l => g_main_loop_quit l
         | None => ret tt
         end
       else ret tt) p
  end.

Definition SetupSignalHandlers : M unit :=
  std_signal SIGSEGV handler_SignalHandler ;;
  std_signal SIGABRT handler_SignalHandler ;;
  std_signal SIGFPE handler_SignalHandler ;;
  std_signal SIGBUS handler_SignalHandler ;;
  std_signal SIGILL handler_SignalHandler ;;
  std_signal SIGINT handler_SignalHandler ;;
  std_signal SIGTERM handler_SignalHandler.

(** [g_main_loop_run]: marks the loop running and serves until
    [is_running] is cleared.  [signals] are the signals that reach the
    process while it serves, in order; when none is left and the loop has not
    been told to quit, the call has not returned.  An installed handler runs
    with a nesting budget of one. *)
Fixpoint main_loop_iterate (w : world) (loop : nat) (signals : list Z) (p : process)
  : outcome unit :=
  match main_loops p !! loop with
  | Some true =>
      match signals with
      | [] => Blocked p
      | sig :: signals' =>
          (deliver (SignalHandler w 1) sig ;; main_loop_iterate w loop signals') p
      end
  | _ => Ret tt p
  end.

Definition g_main_loop_run (w : world) (loop : nat) (signals : list Z) : M unit :=
  fun p =>
    (emit (ev_loop_run loop) ;; main_loop_iterate w loop signals)
      (with_main_loops p (alter (fun _ => true) loop (main_loops p))).

Definition uint16_t (i : Z) : Z := i mod 65536.

Record Config := { port : Z }.

Definition Config_default : Config := {| port := 9554 |}.

(** The logger [InitLogger] creates, after [set_level]. *)
Definition rtsp_logger : logger :=
  {| logger_name := "rtsp-test-server"; logger_level := info |}.

Definition InitLogger : M unit :=
  fun p => Ret tt (with_Log p (Some rtsp_logger)).

(** *** LoadConfig *)

Definition g_file_test (w : world) (path : string) : M bool :=
  emit (ev_file_test path) ;; ret (g_file_test_is_regular w path).

Definition config_read_file (w : world) (path : string) : M read_result :=
  emit (ev_read_file path) ;; ret (libconfig_parse w path).

(** How one turn of the [for] loop ends: it goes on to the next directory
    with the accumulated [loadedConfig], or it leaves the function by
    [return]. *)
Inductive flow :=
| flow_next (loadedConfig : Config)
| flow_return.

Definition LoadConfig_body (w : world) (configDir : string) (loadedConfig : Config)
  : M flow :=
  let configFile := configDir +:+ "/rtsp-test-server.conf" in
  let* regular := g_file_test w configFile in
  if negb regular then ret (flow_next loadedConfig)
  else
    log_ err ("Loading config " +:+ dquote +:+ "{}" +:+ dquote) [fmt.a_str configFile] ;;
    let* r := config_read_file w configFile in
    match r with
    | read_error text line =>
        log_ err "Fail load config. {}. {}:{}"
             [fmt.a_str text; fmt.a_str configFile; fmt.a_int line] ;;
        ret flow_return
    | read_ok config =>
        match config_lookup_int config "port" with
        | Some port =>
            if (0 <? port) && (port <? 65535) then
              ret (flow_next {| port := uint16_t port |})
            else
              log_ err "Invalid port value" [] ;;
              ret (flow_next loadedConfig)
        | None => ret (flow_next loadedConfig)
        end
    end.

Fixpoint LoadConfig_loop (w : world) (configDirs : list string) (loadedConfig : Config)
  : M flow :=
  match configDirs with
  | [] => ret (flow_next loadedConfig)
  | configDir :: rest =>
      let* f := LoadConfig_body w configDir loadedConfig in
      match f with
      | flow_next loadedConfig' => LoadConfig_loop w rest loadedConfig'
      | flow_return => ret flow_return
      end
  end.

(** [LoadConfig (Config* config)]: the result is the value of [*config] when
    the call returns. *)
Definition LoadConfig (w : world) (config : Config) : M Config :=
  let configDirs := ConfigDirs w in
  if bool_decide (configDirs = []) then ret config
  else
    let loadedConfig := config in
    let* f := LoadConfig_loop w configDirs loadedConfig in
    match f with
    | flow_return => ret config
    | flow_next loadedConfig' => ret loadedConfig'
    end.

(** *** main *)

Definition h264PipelineTemplate : string :=
  "( videotestsrc pattern={} ! "
  +:+ "timeoverlay ! "
  +:+ "x264enc ! video/x-h264, profile=baseline ! "
  +:+ "rtph264pay name=pay0 pt=96 config-interval=-1 "
  +:+ "audiotestsrc ! alawenc ! rtppcmapay name=pay1 pt=8 )".

Definition vp8PipelineTemplate : string :=
  "( videotestsrc pattern={} ! "
  +:+ "timeoverlay ! "
  +:+ "vp8enc ! rtpvp8pay name=pay0 pt=96 "
  +:+ "audiotestsrc ! opusenc ! rtpopuspay name=pay1 pt=97 )".

Definition createMountPoints : list (string * string) :=
  [(TEST, "smpte")].

(** [fmt::format] called from [main], where nothing catches. *)
Definition fmt_format (f : string) (args : list fmt.arg) : M string :=
  fun p =>
    match fmt.format f args with
    | Some s => Ret s p
    | None => Threw p
    end.

(** The body shared by the two registration loops of [main]; they differ in
    the template and in the suffix appended to the path. *)
Definition add_factory (mountPoints : option GstRTSPMountPoints)
    (template suffix : string) (mountPoint : string * string) : M unit :=
  let factory := gst_rtsp_media_factory_new in
  let factory :=
    gst_rtsp_media_factory_set_transport_mode factory GST_RTSP_TRANSPORT_MODE_PLAY in
  let* l := fmt_format template [fmt.a_str mountPoint.2] in
  let factory := gst_rtsp_media_factory_set_launch factory l in
  let factory := gst_rtsp_media_factory_set_shared factory true in
  emit (ev_add_factory mountPoints ("/" +:+ mountPoint.1 +:+ suffix) factory).

(** The two loops, over any catalog. *)
Definition register_mount_points (mountPoints : option GstRTSPMountPoints)
    (catalog : list (string * string)) : M unit :=
  for_each catalog (add_factory mountPoints h264PipelineTemplate "") ;;
  for_each catalog (add_factory mountPoints vp8PipelineTemplate "-vp8").

Definition is_null {A} (ptr : option A) : bool :=
  match ptr with Some _ => false | None => true end.

(** [main].  [signals] are the signals that reach the process while
    [g_main_loop_run] serves. *)
Definition main (w : world) (signals : list Z) : M Z :=
  InitLogger ;;
  SetupSignalHandlers ;;
  log_ info "=== RTSP Test Server starting ===" [] ;;
  let config := Config_default in
  let* config := LoadConfig w config in
  DisableVaapi ;;
  emit ev_gst_init ;;
  let server := gst_rtsp_server_new w in
  if is_null server then
    log_ err "Fail to create rtsp server" [] ;;
    ret (-1)
  else
    let mountPoints := gst_rtsp_mount_points_new w in
    if is_null server then
      log_ err "Fail to create mount points" [] ;;
      ret (-1)
    else
      emit (ev_set_service server (to_string (port config))) ;;
      emit (ev_set_mount_points server mountPoints) ;;
      register_mount_points mountPoints createMountPoints ;;
      let* loop := g_main_loop_new in
      (fun p => Ret tt (with_g_mainLoop p (Some loop))) ;;
      emit (ev_attach server) ;;
      log_ info "Server started successfully on port {}" [fmt.a_int (port config)] ;;
      log_ info "Available streams:" [] ;;
      for_each createMountPoints (fun mountPoint =>
        log_ info "  rtsp://localhost:{}/{} (H.264)"
             [fmt.a_int (port config); fmt.a_str mountPoint.1] ;;
        log_ info "  rtsp://localhost:{}/{}-vp8 (VP8)"
             [fmt.a_int (port config); fmt.a_str mountPoint.1]) ;;
      g_main_loop_run w loop signals ;;
      log_ info "=== RTSP Test Server exiting normally ===" [] ;;
      ret 0.

(** The status the parent observes for a return value of [main]. *)
Definition exit_status (r : Z) : Z := Z.land r 255.


(** * Vocabulary of the properties *)

(** ** Traces *)

Definition emitted (p : process) (es : list event) : process :=
  with_events p (events p ++ es).

(** What a logging call writes to the sink. *)
Definition log_line (lg : logger) (lvl : level_enum) (f : string) (args : list fmt.arg)
  : list event :=
  if should_log lg lvl then
    match fmt.format f args with
    | Some line => [ev_log lvl line]
    | None => []
    end
  else [].

(** ** Configuration directories *)

Definition conf_file (configDir : string) : string :=
  configDir +:+ "/rtsp-test-server.conf".

Definition port_ok (c : Config) : Prop := 0 < port c < 65535.

(** The directory holds a regular file that libconfig rejects. *)
Definition parse_fails (w : world) (d : string) : bool :=
  g_file_test_is_regular w (conf_file d) &&
  match libconfig_parse w (conf_file d) with
  | read_error _ _ => true
  | read_ok _ => false
  end.

(** What a turn traces up to and including the call of [config_read_file]. *)
Definition loading_events (lg : logger) (d : string) : list event :=
  [ev_file_test (conf_file d)]
  ++ log_line lg err ("Loading config " +:+ dquote +:+ "{}" +:+ dquote)
              [fmt.a_str (conf_file d)]
  ++ [ev_read_file (conf_file d)].

(** What it traces after a failed read. *)
Definition failure_events (lg : logger) (d text : string) (line : Z) : list event :=
  log_line lg err "Fail load config. {}. {}:{}"
           [fmt.a_str text; fmt.a_str (conf_file d); fmt.a_int line].

(** The events [LoadConfig] can cause. *)
Definition config_event (e : event) : bool :=
  match e with
  | ev_file_test _ | ev_read_file _ | ev_log err _ => true
  | _ => false
  end.

(** Following the words of the spec: the valid port a directory supplies,
    if it supplies one, and the port of the last directory that does. *)
Definition supplied_port (w : world) (d : string) : option Z :=
  if g_file_test_is_regular w (conf_file d) then
    match libconfig_parse w (conf_file d) with
    | read_ok doc =>
        match config_lookup_int doc "port" with
        | Some v => if bool_decide (0 < v < 65535) then Some v else None
        | None => None
        end
    | read_error _ _ => None
    end
  else None.

Definition last_valid_port (w : world) (dirs : list string) (previous : Z) : Z :=
  default previous (last (omap (supplied_port w) dirs)).

(** ** Signal classes *)

(** The two classes of signals the handler tells apart. *)
Inductive crash_class := crash_segv | crash_abrt | crash_fpe | crash_bus | crash_ill.

Definition crash_signal (k : crash_class) : Z :=
  match k with
  | crash_segv => SIGSEGV
  | crash_abrt => SIGABRT
  | crash_fpe => SIGFPE
  | crash_bus => SIGBUS
  | crash_ill => SIGILL
  end.

Inductive termination_class := term_int | term_term.

Definition termination_signal (k : termination_class) : Z :=
  match k with
  | term_int => SIGINT
  | term_term => SIGTERM
  end.

Definition signal_name (w : world) (sig : Z) : string :=
  default "unknown" (strsignal w sig).

(** What the handler traces for a crash-class signal, given the logger it
    finds. *)
Definition crash_events (w : world) (l : option logger) (sig : Z) : list event :=
  match l with
  | Some lg =>
      log_line lg critical "Server crashed with signal {} ({})"
               [fmt.a_int sig; fmt.a_str (signal_name w sig)]
      ++ [ev_flush]
  | None => []
  end
  ++ [ev_signal sig SIG_DFL; ev_raise sig].

(** What it traces for a termination-class signal. *)
Definition shutdown_events (w : world) (l : option logger) (loop : option nat) (sig : Z)
  : list event :=
  match l with
  | Some lg =>
      log_line lg info "Received signal {} ({}), shutting down..."
               [fmt.a_int sig; fmt.a_str (signal_name w sig)]
  | None => []
  end
  ++ match loop with
     | Some l => [ev_loop_quit l]
     | None => []
     end.

(** ** The start-up sequence *)

Definition h264_launch (pattern : string) : string :=
  "( videotestsrc pattern=" +:+ pattern
  +:+ " ! timeoverlay ! x264enc ! video/x-h264, profile=baseline ! "
  +:+ "rtph264pay name=pay0 pt=96 config-interval=-1 "
  +:+ "audiotestsrc ! alawenc ! rtppcmapay name=pay1 pt=8 )".

Definition vp8_launch (pattern : string) : string :=
  "( videotestsrc pattern=" +:+ pattern
  +:+ " ! timeoverlay ! vp8enc ! rtpvp8pay name=pay0 pt=96 "
  +:+ "audiotestsrc ! opusenc ! rtpopuspay name=pay1 pt=97 )".

(** A mount registration: PLAY-only, shared. *)
Definition registration (mounts : option GstRTSPMountPoints) (path l : string) : event :=
  ev_add_factory mounts path
    {| transport_mode := GST_RTSP_TRANSPORT_MODE_PLAY; launch := Some l; shared := true |}.

Definition handlers_installed : list event :=
  [ev_signal SIGSEGV handler_SignalHandler; ev_signal SIGABRT handler_SignalHandler;
   ev_signal SIGFPE handler_SignalHandler; ev_signal SIGBUS handler_SignalHandler;
   ev_signal SIGILL handler_SignalHandler; ev_signal SIGINT handler_SignalHandler;
   ev_signal SIGTERM handler_SignalHandler].

(** The trace of [main] up to the call of [g_main_loop_run], for the
    configuration [c] and the events [es] of [LoadConfig]. *)
Definition startup_events (w : world) (c : Config) (es : list event) (loop : nat)
  : list event :=
  handlers_installed
  ++ [ev_log info "=== RTSP Test Server starting ==="]
  ++ es
  ++ [ev_setenv "LIBVA_DRIVER_NAME" "null"; ev_gst_init;
      ev_set_service (gst_rtsp_server_new w) (to_string (port c));
      ev_set_mount_points (gst_rtsp_server_new w) (gst_rtsp_mount_points_new w);
      registration (gst_rtsp_mount_points_new w) "/test" (h264_launch "smpte");
      registration (gst_rtsp_mount_points_new w) "/test-vp8" (vp8_launch "smpte");
      ev_attach (gst_rtsp_server_new w);
      ev_log info ("Server started successfully on port " +:+ to_string (port c));
      ev_log info "Available streams:";
      ev_log info ("  rtsp://localhost:" +:+ to_string (port c) +:+ "/test (H.264)");
      ev_log info ("  rtsp://localhost:" +:+ to_string (port c) +:+ "/test-vp8 (VP8)");
      ev_loop_run loop].

Definition installed_table : gmap Z sighandler :=
  <[SIGTERM := handler_SignalHandler]>
    (<[SIGINT := handler_SignalHandler]>
      (<[SIGILL := handler_SignalHandler]>
        (<[SIGBUS := handler_SignalHandler]>
          (<[SIGFPE := handler_SignalHandler]>
            (<[SIGABRT := handler_SignalHandler]>
              (<[SIGSEGV := handler_SignalHandler]> ∅)))))).

(** The environment after [setenv]. *)
Definition setenv_environ (env : gmap string string) (name value : string)
    (overwrite : bool) : gmap string string :=
  match env !! name with
  | Some _ => if overwrite then <[name := value]> env else env
  | None => <[name := value]> env
  end.

(** The process when [main] calls [LoadConfig]. *)
Definition config_entry (env : gmap string string) : process :=
  {| Log := Some rtsp_logger; g_mainLoop := None; main_loops := ∅;
     sigtable := installed_table; sigmask := []; sigpending := []; environ := env;
     events := handlers_installed ++ [ev_log info "=== RTSP Test Server starting ==="] |}.

(** The process when [main] has entered the event loop. *)
Definition serving (w : world) (env : gmap string string) (c : Config) (es : list event)
  : process :=
  {| Log := Some rtsp_logger; g_mainLoop := Some 0%nat;
     main_loops := {[ 0%nat := true ]};
     sigtable := installed_table; sigmask := []; sigpending := [];
     environ := setenv_environ env "LIBVA_DRIVER_NAME" "null" false;
     events := startup_events w c es 0 |}.

(** The process after the handler has served a termination-class signal in
    the event loop. *)
Definition shut_down (w : world) (env : gmap string string) (c : Config)
    (es : list event) (sig : Z) : process :=
  {| Log := Some rtsp_logger; g_mainLoop := Some 0%nat;
     main_loops := {[ 0%nat := false ]};
     sigtable := installed_table; sigmask := []; sigpending := [];
     environ := setenv_environ env "LIBVA_DRIVER_NAME" "null" false;
     events := startup_events w c es 0
               ++ [ev_log info ("Received signal " +:+ to_string sig +:+ " ("
                                +:+ signal_name w sig +:+ "), shutting down...");
                   ev_loop_quit 0] |}.

(** The process after the handler has served a crash-class signal in the
    event loop. *)
Definition crashed (w : world) (env : gmap string string) (c : Config)
    (es : list event) (sig : Z) : process :=
  {| Log := Some rtsp_logger; g_mainLoop := Some 0%nat;
     main_loops := {[ 0%nat := true ]};
     sigtable := <[sig := SIG_DFL]> installed_table; sigmask := []; sigpending := [];
     environ := setenv_environ env "LIBVA_DRIVER_NAME" "null" false;
     events := startup_events w c es 0
               ++ [ev_log critical ("Server crashed with signal " +:+ to_string sig +:+ " ("
                                    +:+ signal_name w sig +:+ ")");
                   ev_flush; ev_signal sig SIG_DFL; ev_raise sig] |}.

(** ** Example worlds *)

Fixpoint file_at (files : list (string * read_result)) (path : string)
  : option read_result :=
  match files with
  | [] => None
  | (f, r) :: files' => if bool_decide (f = path) then Some r else file_at files' path
  end.

(** [strsignal] of glibc for the signals the handler knows. *)
Definition linux_strsignal (sig : Z) : option string :=
  if sig =? SIGINT then Some "Interrupt"
  else if sig =? SIGILL then Some "Illegal instruction"
  else if sig =? SIGABRT then Some "Aborted"
  else if sig =? SIGBUS then Some "Bus error"
  else if sig =? SIGFPE then Some "Floating point exception"
  else if sig =? SIGSEGV then Some "Segmentation fault"
  else if sig =? SIGTERM then Some "Terminated"
  else None.

(** A world given by its directory list and the files that exist; reading a
    file that does not exist is libconfig's I/O error. *)
Definition example_world (dirs : list string) (files : list (string * read_result))
    (server : option GstRTSPServer) (mounts : option GstRTSPMountPoints) : world :=
  {| ConfigDirs := dirs;
     g_file_test_is_regular :=
       fun path => match file_at files path with Some _ => true | None => false end;
     libconfig_parse :=
       fun path => match file_at files path with
                   | Some r => r
                   | None => read_error "file I/O error" 0
                   end;
     strsignal := linux_strsignal;
     gst_rtsp_server_new := server;
     gst_rtsp_mount_points_new := mounts |}.

Definition dirA : string := "/etc/xdg".
Definition dirB : string := "/home/user/.config".
Definition dirC : string := "/usr/local/etc".

Definition port_file (v : Z) : read_result := read_ok [("port", s_int v)].

(** [A] sets port 1000, [B] sets port 2000. *)
Definition world_two_ports : world :=
  example_world [dirA; dirB]
    [(conf_file dirA, port_file 1000); (conf_file dirB, port_file 2000)]
    (Some the_server) (Some the_mount_points).

(** [A] sets port 1000, the file of [B] is malformed, [C] sets port 2000. *)
Definition world_malformed_second : world :=
  example_world [dirA; dirB; dirC]
    [(conf_file dirA, port_file 1000);
     (conf_file dirB, read_error "syntax error" 3);
     (conf_file dirC, port_file 2000)]
    (Some the_server) (Some the_mount_points).

(** The only file sets port 70000. *)
Definition world_port_70000 : world :=
  example_world [dirA] [(conf_file dirA, port_file 70000)]
    (Some the_server) (Some the_mount_points).

(** No directory holds the file. *)
Definition world_no_file : world :=
  example_world [dirA; dirB] [] (Some the_server) (Some the_mount_points).

(** The server is constructed, the mount-point registry is not. *)
Definition world_null_mount_points : world :=
  example_world [] [] (Some the_server) None.

(** A process in which only the logger has been constructed. *)
Definition process_logged : process :=
  with_Log (process_start ∅) (Some rtsp_logger).

(** The mount registrations in a trace. *)
Definition registrations (es : list event) : list event :=
  List.filter (fun e => match e with ev_add_factory _ _ _ => true | _ => false end) es.

(** The lines written to the log sink in a trace. *)
Definition log_lines (es : list event) : list (level_enum * string) :=
  omap (fun e => match e with ev_log lvl line => Some (lvl, line) | _ => None end) es.

(** ** Further vocabulary *)

(** The signals [SetupSignalHandlers] installs the handler for. *)
Definition handled (sig : Z) : bool :=
  bool_decide (sig ∈ [SIGSEGV; SIGABRT; SIGFPE; SIGBUS; SIGILL; SIGINT; SIGTERM]).


(** The paths tested with [g_file_test], read with [config_read_file], and
    the services set on the server, in a trace. *)
Definition file_tests (es : list event) : list string :=
  omap (fun e => match e with ev_file_test f => Some f | _ => None end) es.

Definition file_reads (es : list event) : list string :=
  omap (fun e => match e with ev_read_file f => Some f | _ => None end) es.

Definition services (es : list event) : list string :=
  omap (fun e => match e with ev_set_service _ s => Some s | _ => None end) es.

(** The directories up to and including the first whose file fails to
    parse. *)
Fixpoint consulted (w : world) (dirs : list string) : list string :=
  match dirs with
  | [] => []
  | d :: dirs' => if parse_fails w d then [d] else d :: consulted w dirs'
  end.

(** The port [main] serves on: the default when some file fails to parse,
    otherwise the port of the last directory that supplies a valid one. *)
Definition resolved_port (w : world) : Z :=
  if existsb (parse_fails w) (ConfigDirs w) then port Config_default
  else last_valid_port w (ConfigDirs w) (port Config_default).


(** * Properties *)

(** ** The trace only grows *)

Lemma emitted_nil p : emitted p [] = p.
Proof. destruct p; unfold emitted, with_events; simpl. by rewrite app_nil_r. Qed.

Lemma emitted_app p es1 es2 : emitted (emitted p es1) es2 = emitted p (es1 ++ es2).
Proof. unfold emitted, with_events; simpl. by rewrite app_assoc. Qed.

Lemma emit_emitted e p : emit e p = Ret tt (emitted p [e]).
Proof. reflexivity. Qed.

Lemma log_emitted lg lvl f args p :
  Log p = Some lg -> log_ lvl f args p = Ret tt (emitted p (log_line lg lvl f args)).
Proof.
  intros HL. unfold log_, log_line. rewrite HL.
  destruct (should_log lg lvl); [destruct (fmt.format f args)|];
    rewrite ?emit_emitted, ?emitted_nil; reflexivity.
Qed.

Lemma bind_Ret {A B} (m : M A) (k : A -> M B) p a p' :
  m p = Ret a p' -> bind m k p = k a p'.
Proof. intros H. unfold bind. by rewrite H. Qed.

(** ** One turn of the loop of [LoadConfig] *)

Lemma g_file_test_run w f p :
  g_file_test w f p = Ret (g_file_test_is_regular w f) (emitted p [ev_file_test f]).
Proof. reflexivity. Qed.

Lemma config_read_file_run w f p :
  config_read_file w f p = Ret (libconfig_parse w f) (emitted p [ev_read_file f]).
Proof. reflexivity. Qed.

(** Runs the first call of a sequence whose result is known. *)
Ltac run_log HL :=
  erewrite (bind_Ret (log_ _ _ _)) by (apply log_emitted; simpl; exact HL).

Section LoadConfig_turn.
Context (w : world) (lg : logger).

Lemma body_missing d c p :
  g_file_test_is_regular w (conf_file d) = false ->
  LoadConfig_body w d c p = Ret (flow_next c) (emitted p [ev_file_test (conf_file d)]).
Proof.
  intros Hreg. unfold LoadConfig_body, g_file_test, bind, emit, ret; simpl.
  fold (conf_file d). by rewrite Hreg.
Qed.

Lemma body_loading d c p :
  Log p = Some lg ->
  g_file_test_is_regular w (conf_file d) = true ->
  LoadConfig_body w d c p =
  (match libconfig_parse w (conf_file d) with
   | read_error text line =>
       log_ err "Fail load config. {}. {}:{}"
            [fmt.a_str text; fmt.a_str (conf_file d); fmt.a_int line] ;;
       ret flow_return
   | read_ok config =>
       match config_lookup_int config "port" with
       | Some port =>
           if (0 <? port) && (port <? 65535) then
             ret (flow_next {| port := uint16_t port |})
           else
             log_ err "Invalid port value" [] ;;
             ret (flow_next c)
       | None => ret (flow_next c)
       end
   end) (emitted p (loading_events lg d)).
Proof.
  intros HL Hreg. unfold LoadConfig_body. fold (conf_file d).
  erewrite bind_Ret by apply g_file_test_run.
  rewrite Hreg. cbn [negb].
  run_log HL. rewrite emitted_app.
  erewrite bind_Ret by apply config_read_file_run.
  rewrite emitted_app. unfold loading_events. by rewrite <- app_assoc.
Qed.

Lemma body_parse_error d c p text line :
  Log p = Some lg ->
  g_file_test_is_regular w (conf_file d) = true ->
  libconfig_parse w (conf_file d) = read_error text line ->
  LoadConfig_body w d c p =
  Ret flow_return (emitted p (loading_events lg d ++ failure_events lg d text line)).
Proof.
  intros HL Hreg Hrd. rewrite (body_loading d c p HL Hreg).
  rewrite Hrd. run_log HL. by rewrite emitted_app.
Qed.

Lemma body_port_valid d c p doc v :
  Log p = Some lg ->
  g_file_test_is_regular w (conf_file d) = true ->
  libconfig_parse w (conf_file d) = read_ok doc ->
  config_lookup_int doc "port" = Some v ->
  0 < v < 65535 ->
  LoadConfig_body w d c p =
  Ret (flow_next {| port := v |}) (emitted p (loading_events lg d)).
Proof.
  intros HL Hreg Hrd Hlk Hv. rewrite (body_loading d c p HL Hreg).
  rewrite Hrd, Hlk.
  replace ((0 <? v) && (v <? 65535)) with true
    by (symmetry; apply andb_true_iff; split; apply Z.ltb_lt; lia).
  unfold ret, uint16_t. by rewrite Z.mod_small by lia.
Qed.

Lemma body_port_invalid d c p doc v :
  Log p = Some lg ->
  g_file_test_is_regular w (conf_file d) = true ->
  libconfig_parse w (conf_file d) = read_ok doc ->
  config_lookup_int doc "port" = Some v ->
  ~ (0 < v < 65535) ->
  LoadConfig_body w d c p =
  Ret (flow_next c)
      (emitted p (loading_events lg d ++ log_line lg err "Invalid port value" [])).
Proof.
  intros HL Hreg Hrd Hlk Hv. rewrite (body_loading d c p HL Hreg).
  rewrite Hrd, Hlk.
  replace ((0 <? v) && (v <? 65535)) with false.
  - run_log HL. by rewrite emitted_app.
  - symmetry. apply andb_false_iff.
    destruct (Z.ltb_spec 0 v); [right; apply Z.ltb_ge; lia | by left].
Qed.

Lemma body_no_port d c p doc :
  Log p = Some lg ->
  g_file_test_is_regular w (conf_file d) = true ->
  libconfig_parse w (conf_file d) = read_ok doc ->
  config_lookup_int doc "port" = None ->
  LoadConfig_body w d c p = Ret (flow_next c) (emitted p (loading_events lg d)).
Proof.
  intros HL Hreg Hrd Hlk. rewrite (body_loading d c p HL Hreg).
  by rewrite Hrd, Hlk.
Qed.

End LoadConfig_turn.

(** ** The loop of [LoadConfig] *)

Lemma log_line_err_config lg f args : forallb config_event (log_line lg err f args) = true.
Proof.
  unfold log_line. destruct (should_log lg err); [destruct (fmt.format f args)|]; reflexivity.
Qed.

Lemma loading_events_config lg d : forallb config_event (loading_events lg d) = true.
Proof.
  unfold loading_events. rewrite !forallb_app, log_line_err_config. reflexivity.
Qed.

(** With a logger in place a turn always completes; it traces only its own
    calls and hands on a port within bounds. *)
Lemma LoadConfig_body_frame w lg d c p :
  Log p = Some lg ->
  exists f es,
    LoadConfig_body w d c p = Ret f (emitted p es)
    /\ forallb config_event es = true
    /\ (port_ok c -> forall c', f = flow_next c' -> port_ok c').
Proof.
  intros HL.
  destruct (g_file_test_is_regular w (conf_file d)) eqn:Hreg.
  - destruct (libconfig_parse w (conf_file d)) as [doc|text line] eqn:Hrd.
    + destruct (config_lookup_int doc "port") as [v|] eqn:Hlk.
      * destruct (decide (0 < v < 65535)) as [Hv|Hv].
        -- eexists _, _. split; [by eapply body_port_valid|].
           split; [apply loading_events_config|].
           intros _ c' [= <-]. exact Hv.
        -- eexists _, _. split; [by eapply body_port_invalid|].
           split; [by rewrite forallb_app, loading_events_config, log_line_err_config|].
           by intros Hc c' [= <-].
      * eexists _, _. split; [by eapply body_no_port|].
        split; [apply loading_events_config|]. by intros Hc c' [= <-].
    + eexists _, _. split; [by eapply body_parse_error|].
      split; [by rewrite forallb_app, loading_events_config; apply log_line_err_config|].
      intros _ c' [=].
  - eexists _, _. split; [by apply body_missing|]. split; [reflexivity|].
    by intros Hc c' [= <-].
Qed.

Lemma LoadConfig_loop_frame w lg dirs : forall c p,
  Log p = Some lg ->
  exists f es,
    LoadConfig_loop w dirs c p = Ret f (emitted p es)
    /\ forallb config_event es = true
    /\ (port_ok c -> forall c', f = flow_next c' -> port_ok c').
Proof.
  induction dirs as [|d rest IH]; intros c p HL.
  - exists (flow_next c), []. rewrite emitted_nil. split; [reflexivity|].
    split; [reflexivity|]. by intros Hc c' [= <-].
  - destruct (LoadConfig_body_frame w lg d c p HL) as (f & es & Hb & Hes & Hok).
    cbn [LoadConfig_loop]. erewrite bind_Ret by exact Hb.
    destruct f as [c1|].
    + destruct (IH c1 (emitted p es) HL) as (f' & es' & Hl & Hes' & Hok').
      exists f', (es ++ es'). rewrite Hl, emitted_app.
      split; [reflexivity|]. split; [by rewrite forallb_app, Hes, Hes'|].
      intros Hc. apply Hok'. by apply Hok.
    + exists flow_return, es. split; [reflexivity|]. split; [exact Hes|].
      intros _ c' [=].
Qed.

Lemma LoadConfig_frame w lg c p :
  Log p = Some lg ->
  exists c' es,
    LoadConfig w c p = Ret c' (emitted p es)
    /\ forallb config_event es = true
    /\ (port_ok c -> port_ok c').
Proof.
  intros HL. unfold LoadConfig. case_bool_decide.
  - exists c, []. by rewrite emitted_nil.
  - destruct (LoadConfig_loop_frame w lg (ConfigDirs w) c p HL) as (f & es & Hl & Hes & Hok).
    erewrite bind_Ret by exact Hl.
    destruct f as [c1|].
    + exists c1, es. split; [reflexivity|]. split; [exact Hes|]. intros Hc. by apply Hok.
    + exists c, es. done.
Qed.

(** A failing file anywhere in the list ends the loop by [return]. *)
Lemma LoadConfig_loop_parse_failure w lg dirs : forall c p,
  Log p = Some lg ->
  existsb (parse_fails w) dirs = true ->
  exists p', LoadConfig_loop w dirs c p = Ret flow_return p'.
Proof.
  induction dirs as [|d rest IH]; intros c p HL Hex; [discriminate|].
  cbn [existsb] in Hex. cbn [LoadConfig_loop].
  destruct (parse_fails w d) eqn:Hd.
  - unfold parse_fails in Hd. apply andb_true_iff in Hd as [Hreg Hrd].
    destruct (libconfig_parse w (conf_file d)) as [doc|text line] eqn:Hread; [discriminate|].
    erewrite bind_Ret by (by eapply body_parse_error). by eexists.
  - destruct (LoadConfig_body_frame w lg d c p HL) as (f & es & Hb & _ & _).
    erewrite bind_Ret by exact Hb.
    destruct f as [c1|]; [|by eexists].
    apply IH; [exact HL | exact Hex].
Qed.

(** Without a failing file the loop runs to its end. *)
Lemma LoadConfig_loop_no_failure w lg dirs : forall c p,
  Log p = Some lg ->
  existsb (parse_fails w) dirs = false ->
  exists c' p', LoadConfig_loop w dirs c p = Ret (flow_next c') p' /\ Log p' = Some lg.
Proof.
  induction dirs as [|d rest IH]; intros c p HL Hex; [by exists c, p|].
  cbn [existsb] in Hex. apply orb_false_iff in Hex as [Hd Hrest].
  cbn [LoadConfig_loop].
  destruct (LoadConfig_body_frame w lg d c p HL) as (f & es & Hb & _ & _).
  erewrite bind_Ret by exact Hb.
  destruct f as [c1|]; [by apply IH|].
  exfalso. unfold parse_fails in Hd.
  destruct (g_file_test_is_regular w (conf_file d)) eqn:Hreg.
  - destruct (libconfig_parse w (conf_file d)) as [doc|text line] eqn:Hrd; [|discriminate].
    destruct (config_lookup_int doc "port") as [v|] eqn:Hlk.
    + destruct (decide (0 < v < 65535)).
      * erewrite body_port_valid in Hb by done. discriminate.
      * erewrite body_port_invalid in Hb by done. discriminate.
    + erewrite body_no_port in Hb by done. discriminate.
  - rewrite body_missing in Hb by done. discriminate.
Qed.

Lemma LoadConfig_loop_app w l1 l2 c p :
  LoadConfig_loop w (l1 ++ l2) c p =
  (let* f := LoadConfig_loop w l1 c in
   match f with
   | flow_next c' => LoadConfig_loop w l2 c'
   | flow_return => ret flow_return
   end) p.
Proof.
  revert c p. induction l1 as [|d l1 IH]; intros c p; [reflexivity|].
  cbn [app LoadConfig_loop]. unfold bind in *.
  destruct (LoadConfig_body w d c p) as [[c1|] p1| | | | |]; try reflexivity.
  apply IH.
Qed.

(** ** Claims about configuration loading *)

Lemma last_valid_port_cons w d dirs previous :
  last_valid_port w (d :: dirs) previous =
  last_valid_port w dirs (default previous (supplied_port w d)).
Proof.
  unfold last_valid_port. cbn [omap list_omap].
  destruct (supplied_port w d) as [v|]; [|reflexivity].
  rewrite last_cons. by destruct (last _).
Qed.

Lemma LoadConfig_loop_last_valid w lg dirs : forall c p,
  Log p = Some lg ->
  existsb (parse_fails w) dirs = false ->
  exists p',
    LoadConfig_loop w dirs c p
    = Ret (flow_next {| port := last_valid_port w dirs (port c) |}) p'.
Proof.
  induction dirs as [|d rest IH]; intros c p HL Hex.
  - exists p. by destruct c.
  - cbn [existsb] in Hex. apply orb_false_iff in Hex as [Hd Hrest].
    rewrite last_valid_port_cons. cbn [LoadConfig_loop].
    unfold parse_fails in Hd. unfold supplied_port.
    destruct (g_file_test_is_regular w (conf_file d)) eqn:Hreg.
    + destruct (libconfig_parse w (conf_file d)) as [doc|text line] eqn:Hrd; [|discriminate].
      destruct (config_lookup_int doc "port") as [v|] eqn:Hlk.
      * case_bool_decide as Hv.
        -- erewrite bind_Ret by (by eapply body_port_valid).
           by apply (IH {| port := v |}).
        -- erewrite bind_Ret by (by eapply body_port_invalid). by apply IH.
      * erewrite bind_Ret by (by eapply body_no_port). by apply IH.
    + erewrite bind_Ret by (by apply body_missing). by apply IH.
Qed.

(** C8.  When no configuration file fails to parse, the port [LoadConfig]
    leaves in the caller's configuration is the one of the last directory, in
    iteration order, that supplies a valid port (the port on entry when none
    does): a later directory overrides an earlier one. *)
Theorem later_directory_wins (w : world) (lg : logger) (config : Config) (p : process) :
  Log p = Some lg ->
  existsb (parse_fails w) (ConfigDirs w) = false ->
  exists p',
    LoadConfig w config p
    = Ret {| port := last_valid_port w (ConfigDirs w) (port config) |} p'.
Proof.
  intros HL Hex. unfold LoadConfig. case_bool_decide as Hnil.
  - rewrite Hnil. exists p. by destruct config.
  - destruct (LoadConfig_loop_last_valid w lg (ConfigDirs w) config p HL Hex) as (p' & Hl).
    erewrite bind_Ret by exact Hl. by exists p'.
Qed.

(** C3.  When some directory of the list holds a file that fails to parse,
    [LoadConfig] returns with the caller's configuration equal to its value
    on entry, whatever earlier directories supplied. *)
Theorem LoadConfig_atomic_on_parse_failure
    (w : world) (lg : logger) (config : Config) (p : process) :
  Log p = Some lg ->
  existsb (parse_fails w) (ConfigDirs w) = true ->
  exists p', LoadConfig w config p = Ret config p'.
Proof.
  intros HL Hex. unfold LoadConfig. case_bool_decide as Hnil.
  - rewrite Hnil in Hex. discriminate.
  - destruct (LoadConfig_loop_parse_failure w lg _ config p HL Hex) as (p' & Hl).
    erewrite bind_Ret by exact Hl. by exists p'.
Qed.

(** C1, as amended.  When the file of directory [d] fails to parse and no
    file of the directories [pre] before it does, [LoadConfig] stops there:
    the process is left as it was after the turns for [pre] and the failed
    read of [d], so that no directory after [d] is looked at, and the
    caller's configuration is the one it had on entry. *)
Theorem parse_failure_aborts_resolution
    (w : world) (lg : logger) (config : Config) (p : process)
    (pre : list string) (d : string) (post : list string) :
  Log p = Some lg ->
  ConfigDirs w = pre ++ d :: post ->
  existsb (parse_fails w) pre = false ->
  parse_fails w d = true ->
  exists acc p1 text line,
    LoadConfig_loop w pre config p = Ret (flow_next acc) p1
    /\ libconfig_parse w (conf_file d) = read_error text line
    /\ LoadConfig w config p
       = Ret config (emitted p1 (loading_events lg d ++ failure_events lg d text line)).
Proof.
  intros HL Hdirs Hpre Hd.
  destruct (LoadConfig_loop_no_failure w lg pre config p HL Hpre) as (acc & p1 & Hl & HL1).
  unfold parse_fails in Hd. apply andb_true_iff in Hd as [Hreg Hrd].
  destruct (libconfig_parse w (conf_file d)) as [doc|text line] eqn:Hread; [discriminate|].
  exists acc, p1, text, line. split; [exact Hl|]. split; [reflexivity|].
  unfold LoadConfig. rewrite Hdirs. case_bool_decide as Hnil.
  - by destruct pre.
  - unfold bind at 1. rewrite LoadConfig_loop_app.
    erewrite bind_Ret by exact Hl. cbn [LoadConfig_loop].
    erewrite bind_Ret by (by eapply body_parse_error). reflexivity.
Qed.

(** C9.  A file that parses and sets [port] to a value outside (0, 65535)
    makes its turn log the two error lines and hand on the accumulated
    configuration unchanged, and the loop goes on with the remaining
    directories. *)
Theorem out_of_range_port_is_skipped
    (w : world) (lg : logger) (d : string) (rest : list string)
    (loadedConfig : Config) (p : process) (doc : config_t) (v : Z) :
  Log p = Some lg ->
  should_log lg err = true ->
  g_file_test_is_regular w (conf_file d) = true ->
  libconfig_parse w (conf_file d) = read_ok doc ->
  config_lookup_int doc "port" = Some v ->
  ~ (0 < v < 65535) ->
  let p' := emitted p [ev_file_test (conf_file d);
                       ev_log err ("Loading config " +:+ dquote +:+ conf_file d +:+ dquote);
                       ev_read_file (conf_file d);
                       ev_log err "Invalid port value"] in
  LoadConfig_body w d loadedConfig p = Ret (flow_next loadedConfig) p'
  /\ LoadConfig_loop w (d :: rest) loadedConfig p = LoadConfig_loop w rest loadedConfig p'.
Proof.
  intros HL Hlvl Hreg Hrd Hlk Hv p'.
  assert (Hb : LoadConfig_body w d loadedConfig p = Ret (flow_next loadedConfig) p').
  { erewrite body_port_invalid by done. subst p'. f_equal. f_equal.
    unfold loading_events, log_line. rewrite Hlvl. reflexivity. }
  split; [exact Hb|]. cbn [LoadConfig_loop]. by erewrite bind_Ret by exact Hb.
Qed.

(** ** The signal handler *)

Lemma log_flush_emitted lg p :
  Log p = Some lg -> log_flush p = Ret tt (emitted p [ev_flush]).
Proof. intros HL. unfold log_flush. by rewrite HL. Qed.

(** For a crash-class signal the handler comes to the point where the raised
    signal is sent to the process. *)
Lemma SignalHandler_crash_raise w depth k p :
  SignalHandler w (S depth) (crash_signal k) p =
  let sig := crash_signal k in
  deliver (SignalHandler w depth) sig
          (with_sigtable (emitted p (crash_events w (Log p) sig))
                         (<[sig := SIG_DFL]> (sigtable p))).
Proof.
  cbn [SignalHandler].
  replace ((crash_signal k =? SIGSEGV) || (crash_signal k =? SIGABRT)
           || (crash_signal k =? SIGFPE) || (crash_signal k =? SIGBUS)
           || (crash_signal k =? SIGILL)) with true by (by destruct k).
  unfold crash_events. fold (signal_name w (crash_signal k)).
  destruct (Log p) as [lg|] eqn:HL.
  - unfold bind at 1. unfold bind at 1. unfold gets at 1. rewrite HL.
    run_log HL. erewrite log_flush_emitted by (simpl; exact HL).
    rewrite emitted_app.
    unfold bind at 1. unfold std_signal at 1. rewrite emit_emitted.
    unfold std_raise, bind. rewrite emit_emitted. cbv zeta. f_equal.
    unfold emitted, with_sigtable, with_events; simpl.
    by rewrite <- !app_assoc.
  - unfold bind at 1. unfold bind at 1. unfold gets at 1. rewrite HL.
    unfold ret at 1.
    unfold bind at 1. unfold std_signal at 1. rewrite emit_emitted.
    unfold std_raise, bind. rewrite emit_emitted. cbv zeta. f_equal.
    unfold emitted, with_sigtable, with_events; simpl.
    by rewrite <- !app_assoc.
Qed.

Lemma deliver_blocked h sig p :
  sig ∈ sigmask p -> deliver h sig p = Ret tt (with_sigpending p (pend sig (sigpending p))).
Proof. intros Hb. unfold deliver. by rewrite bool_decide_eq_true_2. Qed.

Lemma deliver_default_fatal h sig p :
  sig ∉ sigmask p -> sigtable p !! sig = Some SIG_DFL -> sig_default sig <> act_ign ->
  deliver h sig p = Killed sig p.
Proof.
  intros Hb Ht Hd. unfold deliver. rewrite bool_decide_eq_false_2 by exact Hb.
  unfold bind, dispatch. rewrite Ht. cbn [default from_option id].
  by destruct (sig_default sig).
Qed.

Lemma crash_default k : sig_default (crash_signal k) <> act_ign.
Proof. by destruct k. Qed.

(** Called with its signal blocked, as when the process takes the signal,
    the handler returns and leaves the signal pending. *)
Lemma SignalHandler_crash_blocked w depth k p :
  crash_signal k ∈ sigmask p ->
  SignalHandler w (S depth) (crash_signal k) p =
  let sig := crash_signal k in
  Ret tt (with_sigpending
            (with_sigtable (emitted p (crash_events w (Log p) sig))
                           (<[sig := SIG_DFL]> (sigtable p)))
            (pend sig (sigpending p))).
Proof.
  intros Hb. rewrite SignalHandler_crash_raise. cbv zeta.
  by rewrite deliver_blocked.
Qed.

(** Called with its signal not blocked, the handler does not return: the
    raised signal is taken with its default action. *)
Lemma SignalHandler_crash w depth k p :
  crash_signal k ∉ sigmask p ->
  SignalHandler w (S depth) (crash_signal k) p =
  let sig := crash_signal k in
  let p1 := emitted p (crash_events w (Log p) sig) in
  Killed sig (with_sigtable p1 (<[sig := SIG_DFL]> (sigtable p))).
Proof.
  intros Hb. rewrite SignalHandler_crash_raise. cbv zeta.
  apply deliver_default_fatal; [exact Hb | apply lookup_insert_eq | apply crash_default].
Qed.

Lemma SignalHandler_termination w depth k p :
  SignalHandler w (S depth) (termination_signal k) p =
  let sig := termination_signal k in
  let p1 := emitted p (shutdown_events w (Log p) (g_mainLoop p) sig) in
  Ret tt (match g_mainLoop p with
          | Some l => with_main_loops p1 (alter (fun _ => false) l (main_loops p))
          | None => p1
          end).
Proof.
  cbn [SignalHandler].
  replace ((termination_signal k =? SIGSEGV) || (termination_signal k =? SIGABRT)
           || (termination_signal k =? SIGFPE) || (termination_signal k =? SIGBUS)
           || (termination_signal k =? SIGILL)) with false by (by destruct k).
  replace ((termination_signal k =? SIGINT) || (termination_signal k =? SIGTERM))
    with true by (by destruct k).
  unfold shutdown_events. fold (signal_name w (termination_signal k)).
  destruct (Log p) as [lg|] eqn:HL.
  - unfold bind at 1. unfold bind at 1. unfold gets at 1. rewrite HL.
    erewrite log_emitted by exact HL. unfold bind, gets; simpl.
    destruct (g_mainLoop p) as [l|]; simpl.
    + unfold g_main_loop_quit, emit, emitted, with_main_loops, with_events; simpl.
      by rewrite <- !app_assoc.
    + unfold ret. by rewrite app_nil_r.
  - unfold bind at 1. unfold bind at 1. unfold gets at 1. rewrite HL.
    unfold ret at 1. unfold bind, gets; simpl.
    destruct (g_mainLoop p) as [l|]; simpl.
    + reflexivity.
    + unfold ret. by rewrite emitted_nil.
Qed.

Lemma bind_ext {A B} (m : M A) (k1 k2 : A -> M B) p :
  (forall a p', k1 a p' = k2 a p') -> bind m k1 p = bind m k2 p.
Proof. intros H. unfold bind. destruct (m p); auto. Qed.


(** ** From process start to the event loop *)

Lemma setenv_run name value overwrite p :
  setenv name value overwrite p
  = Ret tt (emitted (with_environ p (setenv_environ (environ p) name value overwrite))
                    [ev_setenv name value]).
Proof.
  unfold setenv, setenv_environ.
  destruct (environ p !! name); [destruct overwrite|]; reflexivity.
Qed.

(** Keeps the process a record of its six fields while a sequence runs. *)
Ltac flat :=
  cbv beta iota zeta delta
    [emitted with_events with_Log with_g_mainLoop with_main_loops with_sigtable
     with_sigmask with_sigpending with_environ
     Log g_mainLoop main_loops sigtable sigmask sigpending environ events].

Ltac run := erewrite bind_Ret by reflexivity; flat.

Lemma process_eq (p q : process) :
  Log p = Log q -> g_mainLoop p = g_mainLoop q -> main_loops p = main_loops q ->
  sigtable p = sigtable q -> sigmask p = sigmask q -> sigpending p = sigpending q ->
  environ p = environ q -> events p = events q ->
  p = q.
Proof. destruct p, q; simpl; congruence. Qed.

Lemma append_empty_r (s : string) : s +:+ "" = s.
Proof.
  induction s as [|a s IH]; [reflexivity|].
  change (String a (s +:+ "") = String a s). by rewrite IH.
Qed.

Lemma started_line (v : Z) :
  log_line rtsp_logger info "Server started successfully on port {}" [fmt.a_int v]
  = [ev_log info ("Server started successfully on port " +:+ to_string v)].
Proof.
  unfold log_line. cbn [should_log rtsp_logger logger_level level_rank].
  change (fmt.format "Server started successfully on port {}" [fmt.a_int v])
    with (Some ("Server started successfully on port " +:+ (to_string v +:+ ""))).
  by rewrite append_empty_r.
Qed.

Lemma main_startup w env c es signals :
  is_null (gst_rtsp_server_new w) = false ->
  LoadConfig w Config_default (config_entry env) = Ret c (emitted (config_entry env) es) ->
  main w signals (process_start env)
  = (main_loop_iterate w 0 signals ;;
     log_ info "=== RTSP Test Server exiting normally ===" [] ;;
     ret 0) (serving w env c es).
Proof.
  intros Hsrv HLoad. unfold main, process_start.
  run. run. run.
  erewrite bind_Ret by exact HLoad. unfold config_entry; flat.
  erewrite bind_Ret by apply setenv_run. flat.
  run. rewrite Hsrv.
  run. run. run. run. run. run.
  run_log (eq_refl (Some rtsp_logger)). flat.
  run_log (eq_refl (Some rtsp_logger)). flat.
  run.
  unfold g_main_loop_run. unfold bind at 1. unfold bind at 1.
  rewrite emit_emitted. flat.
  change (fresh (dom (∅ : gmap nat bool))) with 0%nat.
  match goal with
  | |- match main_loop_iterate _ _ _ ?p with _ => _ end = _ =>
      assert (p = serving w env c es) as ->
  end; [|reflexivity].
  apply process_eq; try reflexivity.
  cbn [events serving]. rewrite started_line, <- !app_assoc. reflexivity.
Qed.

(** With the server constructed, [main] reaches the event loop. *)
Lemma main_serves w env :
  is_null (gst_rtsp_server_new w) = false ->
  exists c es,
    port_ok c
    /\ forallb config_event es = true
    /\ forall signals,
         main w signals (process_start env)
         = (main_loop_iterate w 0 signals ;;
            log_ info "=== RTSP Test Server exiting normally ===" [] ;;
            ret 0) (serving w env c es).
Proof.
  intros Hsrv.
  destruct (LoadConfig_frame w rtsp_logger Config_default (config_entry env) eq_refl)
    as (c & es & HLoad & Hes & Hok).
  exists c, es. split; [apply Hok; unfold port_ok, Config_default; simpl; lia|].
  split; [exact Hes|]. intros signals. by apply main_startup.
Qed.

(** With the server missing, [main] logs and returns -1 at once. *)
Lemma main_null_server w env signals :
  gst_rtsp_server_new w = None ->
  exists es,
    forallb config_event es = true
    /\ main w signals (process_start env)
       = Ret (-1)
           {| Log := Some rtsp_logger; g_mainLoop := None; main_loops := ∅;
              sigtable := installed_table; sigmask := []; sigpending := [];
              environ := setenv_environ env "LIBVA_DRIVER_NAME" "null" false;
              events := handlers_installed
                        ++ [ev_log info "=== RTSP Test Server starting ==="]
                        ++ es
                        ++ [ev_setenv "LIBVA_DRIVER_NAME" "null"; ev_gst_init;
                            ev_log err "Fail to create rtsp server"] |}.
Proof.
  intros Hsrv.
  destruct (LoadConfig_frame w rtsp_logger Config_default (config_entry env) eq_refl)
    as (c & es & HLoad & Hes & _).
  exists es. split; [exact Hes|].
  unfold main, process_start.
  run. run. run.
  erewrite bind_Ret by exact HLoad. unfold config_entry; flat.
  erewrite bind_Ret by apply setenv_run. flat.
  run. rewrite Hsrv. cbn [is_null].
  run. unfold ret. f_equal. apply process_eq; try reflexivity.
  cbn [events]. by rewrite <- !app_assoc.
Qed.

Lemma serving_blocked w env c es :
  main_loop_iterate w 0 [] (serving w env c es) = Blocked (serving w env c es).
Proof. reflexivity. Qed.

Lemma installed_lookup_crash k :
  installed_table !! crash_signal k = Some handler_SignalHandler.
Proof. by destruct k. Qed.

Lemma installed_lookup_termination k :
  installed_table !! termination_signal k = Some handler_SignalHandler.
Proof. by destruct k. Qed.

(** The process takes an unblocked signal for which the handler is
    installed, and the handler returns. *)
Lemma deliver_returns h sig p p1 :
  sig ∉ sigmask p ->
  sigtable p !! sig = Some handler_SignalHandler ->
  h sig (with_sigmask p (sig :: sigmask p)) = Ret tt p1 ->
  deliver h sig p = take_pending h (with_sigmask p1 (sigmask p)).
Proof.
  intros Hb Ht Hh. unfold deliver. rewrite bool_decide_eq_false_2 by exact Hb.
  unfold bind, dispatch. rewrite Ht. cbn [default from_option id]. cbv beta iota zeta.
  unfold bind. by rewrite Hh.
Qed.

(** Delivered to a process that has the handler installed and no signal
    blocked or pending, a crash-class signal ends the process: the handler
    runs and returns, and the signal it left pending is then taken with its
    default action. *)
Lemma deliver_crash w depth k p :
  sigtable p !! crash_signal k = Some handler_SignalHandler ->
  sigmask p = [] ->
  sigpending p = [] ->
  deliver (SignalHandler w (S depth)) (crash_signal k) p
  = Killed (crash_signal k)
           (with_sigtable (emitted p (crash_events w (Log p) (crash_signal k)))
                          (<[crash_signal k := SIG_DFL]> (sigtable p))).
Proof.
  intros Ht Hm Hp.
  erewrite deliver_returns;
    [ | rewrite Hm; apply not_elem_of_nil | exact Ht
      | apply SignalHandler_crash_blocked; cbn [sigmask with_sigmask]; set_solver ].
  cbv zeta. unfold take_pending.
  cbn [sigmask sigpending Log sigtable with_sigmask with_sigpending with_sigtable
       emitted with_events].
  rewrite Hm, Hp. unfold pend.
  replace (bool_decide (crash_signal k ∈ [])) with false
    by (symmetry; apply bool_decide_eq_false_2, not_elem_of_nil).
  cbn [app List.filter].
  replace (bool_decide (crash_signal k ∈ [])) with false
    by (symmetry; apply bool_decide_eq_false_2, not_elem_of_nil).
  cbn [negb for_each]. unfold bind at 1. unfold bind at 1.
  cbn [sigpending with_sigpending with_sigmask List.filter].
  rewrite Z.eqb_refl. cbn [negb].
  unfold bind, dispatch.
  cbn [sigtable with_sigpending with_sigmask with_sigtable].
  rewrite lookup_insert_eq. cbn [default from_option id].
  pose proof (crash_default k) as Hd.
  destruct (sig_default (crash_signal k)); [| |done];
    (f_equal; apply process_eq; try reflexivity; cbn; congruence).
Qed.

Lemma serving_termination w env c es k rest :
  main_loop_iterate w 0 (termination_signal k :: rest) (serving w env c es)
  = Ret tt (shut_down w env c es (termination_signal k)).
Proof.
  cbn [main_loop_iterate]. change (main_loops (serving w env c es) !! 0%nat) with (Some true).
  cbv iota. unfold bind at 1.
  erewrite deliver_returns;
    [ | apply not_elem_of_nil | apply installed_lookup_termination
      | apply SignalHandler_termination ].
  cbv zeta. unfold take_pending.
  cbn [g_mainLoop sigmask sigpending serving with_sigmask with_main_loops emitted
       with_events List.filter for_each].
  unfold ret at 1.
  replace (with_sigmask _ _) with (shut_down w env c es (termination_signal k))
    by reflexivity.
  by destruct rest.
Qed.

Lemma serving_crash w env c es k rest :
  main_loop_iterate w 0 (crash_signal k :: rest) (serving w env c es)
  = Killed (crash_signal k) (crashed w env c es (crash_signal k)).
Proof.
  cbn [main_loop_iterate]. change (main_loops (serving w env c es) !! 0%nat) with (Some true).
  cbv iota. unfold bind at 1.
  rewrite deliver_crash by (apply installed_lookup_crash || reflexivity).
  reflexivity.
Qed.

Lemma later_directory_wins_witness :
  exists p',
    LoadConfig world_two_ports Config_default process_logged = Ret {| port := 2000 |} p'.
Proof.
  exact (later_directory_wins world_two_ports rtsp_logger Config_default process_logged
           eq_refl eq_refl).
Defined.

Lemma LoadConfig_atomic_on_parse_failure_witness :
  exists p',
    LoadConfig world_malformed_second Config_default process_logged
    = Ret Config_default p'.
Proof.
  exact (LoadConfig_atomic_on_parse_failure world_malformed_second rtsp_logger
           Config_default process_logged eq_refl eq_refl).
Defined.

(** C1, counterexample.  [A] sets port 1000 and the file of [B] is
    malformed: the configuration accumulated from the directory before [B]
    has port 1000, and [LoadConfig] leaves port 9554. *)
Lemma earlier_port_is_discarded :
  exists acc p1 c' p2,
    LoadConfig_loop world_malformed_second [dirA] Config_default process_logged
    = Ret (flow_next acc) p1
    /\ port acc = 1000
    /\ parse_fails world_malformed_second dirB = true
    /\ LoadConfig world_malformed_second Config_default process_logged = Ret c' p2
    /\ port c' = 9554
    /\ port c' <> port acc.
Proof.
  eexists _, _, _, _. split; [vm_compute; reflexivity|].
  split; [reflexivity|]. split; [reflexivity|].
  split; [vm_compute; reflexivity|]. split; [reflexivity|]. discriminate.
Qed.

Lemma parse_failure_aborts_resolution_witness :
  exists acc p1 text line,
    LoadConfig_loop world_malformed_second [dirA] Config_default process_logged
    = Ret (flow_next acc) p1
    /\ libconfig_parse world_malformed_second (conf_file dirB) = read_error text line
    /\ LoadConfig world_malformed_second Config_default process_logged
       = Ret Config_default
           (emitted p1 (loading_events rtsp_logger dirB
                        ++ failure_events rtsp_logger dirB text line)).
Proof.
  exact (parse_failure_aborts_resolution world_malformed_second rtsp_logger
           Config_default process_logged [dirA] dirB [dirC]
           eq_refl eq_refl eq_refl eq_refl).
Defined.

Lemma out_of_range_port_is_skipped_witness :
  LoadConfig_body world_port_70000 dirA Config_default process_logged
  = Ret (flow_next Config_default)
        (emitted process_logged
           [ev_file_test (conf_file dirA);
            ev_log err ("Loading config " +:+ dquote +:+ conf_file dirA +:+ dquote);
            ev_read_file (conf_file dirA);
            ev_log err "Invalid port value"]).
Proof.
  refine (proj1 (out_of_range_port_is_skipped world_port_70000 rtsp_logger dirA []
                   Config_default process_logged [("port", s_int 70000)] 70000
                   eq_refl eq_refl eq_refl eq_refl eq_refl _)).
  lia.
Defined.

(** Two runs on concrete directories: a single file setting port 8080, and a
    malformed file in the first directory, after which the second directory
    is not looked at. *)
Example single_file_sets_port :
  exists p',
    LoadConfig (example_world [dirA] [(conf_file dirA, port_file 8080)] None None)
               Config_default process_logged
    = Ret {| port := 8080 |} p'.
Proof. eexists. vm_compute. reflexivity. Qed.

Example malformed_first_directory :
  LoadConfig (example_world [dirA; dirB]
                [(conf_file dirA, read_error "syntax error" 1);
                 (conf_file dirB, port_file 2000)] None None)
             Config_default process_logged
  = Ret Config_default
        (emitted process_logged
           [ev_file_test "/etc/xdg/rtsp-test-server.conf";
            ev_log err ("Loading config " +:+ dquote
                        +:+ "/etc/xdg/rtsp-test-server.conf" +:+ dquote);
            ev_read_file "/etc/xdg/rtsp-test-server.conf";
            ev_log err "Fail load config. syntax error. /etc/xdg/rtsp-test-server.conf:1"]).
Proof. vm_compute. reflexivity. Qed.

Lemma LoadConfig_loop_no_file w dirs : forall c p,
  forallb (fun d => negb (g_file_test_is_regular w (conf_file d))) dirs = true ->
  exists p', LoadConfig_loop w dirs c p = Ret (flow_next c) p'.
Proof.
  induction dirs as [|d rest IH]; intros c p Hall; [by exists p|].
  cbn [forallb] in Hall. apply andb_true_iff in Hall as [Hd Hrest].
  apply negb_true_iff in Hd. cbn [LoadConfig_loop].
  erewrite bind_Ret by (by apply body_missing). by apply IH.
Qed.

(** C10.  The default configuration has port 9554, which lies strictly
    between 0 and 65535; starting from a port within these bounds, the loop
    of [LoadConfig] over any directories and [LoadConfig] itself complete
    with a port within them; when no directory holds the configuration file,
    [LoadConfig] returns the default configuration; and the configuration
    [main] serves with is within the bounds. *)
Theorem port_invariant :
  port Config_default = 9554
  /\ port_ok Config_default
  /\ (forall w lg dirs c p,
        Log p = Some lg -> port_ok c ->
        exists f p',
          LoadConfig_loop w dirs c p = Ret f p'
          /\ forall c', f = flow_next c' -> port_ok c')
  /\ (forall w lg c p,
        Log p = Some lg -> port_ok c ->
        exists c' p', LoadConfig w c p = Ret c' p' /\ port_ok c')
  /\ (forall w p,
        forallb (fun d => negb (g_file_test_is_regular w (conf_file d))) (ConfigDirs w) = true ->
        exists p', LoadConfig w Config_default p = Ret Config_default p')
  /\ (forall w env,
        is_null (gst_rtsp_server_new w) = false ->
        exists c es,
          port_ok c /\ main w [] (process_start env) = Blocked (serving w env c es)).
Proof.
  split; [reflexivity|]. split; [unfold port_ok; simpl; lia|].
  split; [|split; [|split]].
  - intros w lg dirs c p HL Hc.
    destruct (LoadConfig_loop_frame w lg dirs c p HL) as (f & es & Hl & _ & Hok).
    exists f, (emitted p es). split; [exact Hl|]. by apply Hok.
  - intros w lg c p HL Hc.
    destruct (LoadConfig_frame w lg c p HL) as (c' & es & Hl & _ & Hok).
    exists c', (emitted p es). split; [exact Hl|]. by apply Hok.
  - intros w p Hall. unfold LoadConfig. case_bool_decide; [by exists p|].
    destruct (LoadConfig_loop_no_file w (ConfigDirs w) Config_default p Hall) as (p' & Hl).
    erewrite bind_Ret by exact Hl. by exists p'.
  - intros w env Hsrv.
    destruct (main_serves w env Hsrv) as (c & es & Hc & _ & Hmain).
    exists c, es. split; [exact Hc|]. rewrite Hmain.
    unfold bind. by rewrite serving_blocked.
Qed.

Lemma port_invariant_witness :
  (exists c' p',
     LoadConfig world_two_ports Config_default process_logged = Ret c' p' /\ port_ok c')
  /\ (exists p',
        LoadConfig world_no_file Config_default (process_start ∅) = Ret Config_default p')
  /\ (exists c es,
        port_ok c
        /\ main world_port_70000 [] (process_start ∅)
           = Blocked (serving world_port_70000 ∅ c es)).
Proof.
  destruct port_invariant as (_ & Hd & _ & Hload & Hnone & Hmain).
  split; [|split].
  - exact (Hload world_two_ports rtsp_logger Config_default process_logged eq_refl Hd).
  - exact (Hnone world_no_file (process_start ∅) eq_refl).
  - exact (Hmain world_port_70000 ∅ eq_refl).
Defined.

(** ** Claims about registration *)

Lemma h264_format pattern :
  fmt.format h264PipelineTemplate [fmt.a_str pattern] = Some (h264_launch pattern).
Proof. reflexivity. Qed.

Lemma vp8_format pattern :
  fmt.format vp8PipelineTemplate [fmt.a_str pattern] = Some (vp8_launch pattern).
Proof. reflexivity. Qed.

Lemma for_each_add_factory mounts template suffix (L : string -> string) catalog :
  (forall pattern, fmt.format template [fmt.a_str pattern] = Some (L pattern)) ->
  forall p,
    for_each catalog (add_factory mounts template suffix) p
    = Ret tt (emitted p (map (fun mp => registration mounts ("/" +:+ mp.1 +:+ suffix)
                                                     (L mp.2)) catalog)).
Proof.
  intros HL. induction catalog as [|mp catalog IH]; intros p.
  - cbn [for_each map]. by rewrite emitted_nil.
  - cbn [for_each map].
    assert (Hone : add_factory mounts template suffix mp p
                   = Ret tt (emitted p [registration mounts ("/" +:+ mp.1 +:+ suffix)
                                                     (L mp.2)])).
    { unfold add_factory, bind, fmt_format. by rewrite HL. }
    erewrite bind_Ret by exact Hone. by rewrite IH, emitted_app.
Qed.

Lemma registrations_config es :
  forallb config_event es = true -> registrations es = [].
Proof.
  induction es as [|e es IH]; [reflexivity|].
  cbn [forallb]. intros [He Hes]%andb_true_iff.
  unfold registrations in *. cbn [List.filter].
  destruct e as [lvl line| | | | | | | | | | | | |]; try discriminate; try destruct lvl;
    try discriminate; by apply IH.
Qed.

(** C4.  Over any catalog the two loops register every entry with the H.264
    template under "/name", in catalog order, and then every entry with the
    VP8 template under "/name-vp8", in catalog order, each factory PLAY-only
    and shared.  The catalog of the program is the single entry (test,
    smpte); for it the registrations are "/test" with the H.264 template
    filled with smpte and "/test-vp8" with the VP8 template filled with smpte,
    and these two are all the registrations [main] has made when it serves. *)
Theorem registration_of_catalog :
  (forall mounts catalog p,
     register_mount_points mounts catalog p
     = Ret tt (emitted p
         (map (fun mp => registration mounts ("/" +:+ mp.1) (h264_launch mp.2)) catalog
          ++ map (fun mp => registration mounts ("/" +:+ mp.1 +:+ "-vp8") (vp8_launch mp.2))
                 catalog)))
  /\ createMountPoints = [("test", "smpte")]
  /\ (forall mounts p,
        register_mount_points mounts createMountPoints p
        = Ret tt (emitted p
            [ev_add_factory mounts "/test"
               {| transport_mode := GST_RTSP_TRANSPORT_MODE_PLAY;
                  launch := Some ("( videotestsrc pattern=smpte ! timeoverlay ! "
                    +:+ "x264enc ! video/x-h264, profile=baseline ! "
                    +:+ "rtph264pay name=pay0 pt=96 config-interval=-1 "
                    +:+ "audiotestsrc ! alawenc ! rtppcmapay name=pay1 pt=8 )");
                  shared := true |};
             ev_add_factory mounts "/test-vp8"
               {| transport_mode := GST_RTSP_TRANSPORT_MODE_PLAY;
                  launch := Some ("( videotestsrc pattern=smpte ! timeoverlay ! "
                    +:+ "vp8enc ! rtpvp8pay name=pay0 pt=96 "
                    +:+ "audiotestsrc ! opusenc ! rtpopuspay name=pay1 pt=97 )");
                  shared := true |}]))
  /\ (forall w env,
        is_null (gst_rtsp_server_new w) = false ->
        exists p,
          main w [] (process_start env) = Blocked p
          /\ registrations (events p)
             = [registration (gst_rtsp_mount_points_new w) "/test" (h264_launch "smpte");
                registration (gst_rtsp_mount_points_new w) "/test-vp8" (vp8_launch "smpte")]).
Proof.
  assert (Hany : forall mounts catalog p,
     register_mount_points mounts catalog p
     = Ret tt (emitted p
         (map (fun mp => registration mounts ("/" +:+ mp.1) (h264_launch mp.2)) catalog
          ++ map (fun mp => registration mounts ("/" +:+ mp.1 +:+ "-vp8") (vp8_launch mp.2))
                 catalog))).
  { intros mounts catalog p. unfold register_mount_points.
    erewrite bind_Ret by (apply (for_each_add_factory _ _ _ h264_launch), h264_format).
    rewrite (for_each_add_factory _ _ _ vp8_launch) by apply vp8_format.
    rewrite emitted_app. do 3 f_equal.
    apply map_ext. intros mp. by rewrite append_empty_r. }
  split; [exact Hany|]. split; [reflexivity|]. split.
  - intros mounts p. by rewrite Hany.
  - intros w env Hsrv.
    destruct (main_serves w env Hsrv) as (c & es & _ & Hes & Hmain).
    exists (serving w env c es). split.
    + rewrite Hmain. unfold bind. by rewrite serving_blocked.
    + cbn [events serving]. unfold startup_events, registrations.
      rewrite !List.filter_app. fold (registrations es).
      rewrite (registrations_config es Hes). reflexivity.
Qed.

Lemma registration_of_catalog_witness :
  exists p,
    main world_two_ports [] (process_start ∅) = Blocked p
    /\ registrations (events p)
       = [registration (Some the_mount_points) "/test" (h264_launch "smpte");
          registration (Some the_mount_points) "/test-vp8" (vp8_launch "smpte")].
Proof.
  destruct registration_of_catalog as (_ & _ & _ & Hmain).
  exact (Hmain world_two_ports ∅ eq_refl).
Defined.

(** ** Claims about the process lifecycle *)

(** C2, at the failing input: the server is constructed and the mount-point
    registry is null.  [main] does not return: it registers both factories
    on the null registry, enters the event loop and serves, having logged no
    error; on SIGINT it then returns 0. *)
Theorem main_null_mount_points_serves :
  gst_rtsp_server_new world_null_mount_points = Some the_server
  /\ gst_rtsp_mount_points_new world_null_mount_points = None
  /\ (exists p,
        main world_null_mount_points [] (process_start ∅) = Blocked p
        /\ registrations (events p)
           = [registration None "/test" (h264_launch "smpte");
              registration None "/test-vp8" (vp8_launch "smpte")]
        /\ last (events p) = Some (ev_loop_run 0)
        /\ log_lines (events p)
           = [(info, "=== RTSP Test Server starting ===");
              (info, "Server started successfully on port 9554");
              (info, "Available streams:");
              (info, "  rtsp://localhost:9554/test (H.264)");
              (info, "  rtsp://localhost:9554/test-vp8 (VP8)")])
  /\ (exists p,
        main world_null_mount_points [SIGINT] (process_start ∅) = Ret 0 p
        /\ exit_status 0 = 0).
Proof.
  split; [reflexivity|]. split; [reflexivity|]. split.
  - eexists. split; [vm_compute; reflexivity|].
    split; [reflexivity|]. split; reflexivity.
  - eexists. split; [vm_compute; reflexivity|]. reflexivity.
Qed.

(** C5.  With the server constructed [main] enters the event loop; a
    termination-class signal delivered while the loop runs makes the handler
    log the shutdown line and quit the loop, after which [main] logs the
    normal-exit line and returns 0.  These are the only events after the loop
    was entered, and signals sent later are not served. *)
Theorem termination_signal_exits_normally
    (w : world) (env : gmap string string) (k : termination_class) (rest : list Z) :
  is_null (gst_rtsp_server_new w) = false ->
  exists p_run p_exit,
    main w [] (process_start env) = Blocked p_run
    /\ g_mainLoop p_run = Some 0%nat
    /\ main_loops p_run !! 0%nat = Some true
    /\ main w (termination_signal k :: rest) (process_start env) = Ret 0 p_exit
    /\ exit_status 0 = 0
    /\ main_loops p_exit !! 0%nat = Some false
    /\ events p_exit
       = events p_run
         ++ [ev_log info ("Received signal " +:+ to_string (termination_signal k) +:+ " ("
                          +:+ signal_name w (termination_signal k)
                          +:+ "), shutting down...");
             ev_loop_quit 0;
             ev_log info "=== RTSP Test Server exiting normally ==="].
Proof.
  intros Hsrv.
  destruct (main_serves w env Hsrv) as (c & es & _ & _ & Hmain).
  exists (serving w env c es).
  exists (emitted (shut_down w env c es (termination_signal k))
                  [ev_log info "=== RTSP Test Server exiting normally ==="]).
  split; [rewrite Hmain; unfold bind; by rewrite serving_blocked|].
  split; [reflexivity|]. split; [reflexivity|]. split.
  { rewrite Hmain. erewrite bind_Ret by apply serving_termination. reflexivity. }
  split; [reflexivity|]. split; [reflexivity|].
  cbn [events emitted with_events shut_down serving]. by rewrite <- app_assoc.
Qed.

Lemma termination_signal_exits_normally_witness :
  exists p_run p_exit,
    main world_two_ports [] (process_start ∅) = Blocked p_run
    /\ g_mainLoop p_run = Some 0%nat
    /\ main_loops p_run !! 0%nat = Some true
    /\ main world_two_ports [SIGTERM; SIGINT] (process_start ∅) = Ret 0 p_exit
    /\ exit_status 0 = 0
    /\ main_loops p_exit !! 0%nat = Some false
    /\ events p_exit
       = events p_run
         ++ [ev_log info "Received signal 15 (Terminated), shutting down...";
             ev_loop_quit 0;
             ev_log info "=== RTSP Test Server exiting normally ==="].
Proof.
  exact (termination_signal_exits_normally world_two_ports ∅ term_term [SIGINT] eq_refl).
Defined.

Lemma elem_of_pend sig pending : sig ∈ pend sig pending.
Proof. unfold pend. case_bool_decide; set_solver. Qed.

(** C6, counterexample.  [main] serves and the process takes SIGSEGV: it
    runs the handler with SIGSEGV blocked.  The handler logs, restores the
    default disposition and raises the signal, which stays pending, and then
    it returns normally. *)
Lemma crash_handler_returns :
  exists p_run p_handler,
    main world_two_ports [] (process_start ∅) = Blocked p_run
    /\ sigtable p_run !! SIGSEGV = Some handler_SignalHandler
    /\ SignalHandler world_two_ports 1 SIGSEGV (with_sigmask p_run [SIGSEGV])
       = Ret tt p_handler
    /\ sigpending p_handler = [SIGSEGV]
    /\ sigtable p_handler !! SIGSEGV = Some SIG_DFL
    /\ last (events p_handler) = Some (ev_raise SIGSEGV).
Proof.
  eexists _, _. split; [vm_compute; reflexivity|].
  split; [reflexivity|]. split; [vm_compute; reflexivity|].
  split; [reflexivity|]. split; reflexivity.
Qed.

(** C6, as amended.  For a crash-class signal the handler logs the critical
    line naming the signal and flushes, when the logger exists and only then,
    sets the signal back to its default disposition and raises it.  Run by
    the process, with its signal blocked, the handler then returns with the
    signal pending.  Delivered to a process that has the handler installed,
    the signal ends the process: the pending signal is taken with its default
    action when the handler has returned.  Delivered while [main] serves, it
    ends the process with exactly these events after the loop was entered,
    the loop left as it was. *)
Theorem crash_signal_terminates_process (w : world) (k : crash_class) :
  let sig := crash_signal k in
  (forall depth p,
     sig ∈ sigmask p ->
     SignalHandler w (S depth) sig p
     = Ret tt (with_sigpending
                 (with_sigtable (emitted p (crash_events w (Log p) sig))
                                (<[sig := SIG_DFL]> (sigtable p)))
                 (pend sig (sigpending p)))
     /\ sig ∈ pend sig (sigpending p))
  /\ (forall lg,
        should_log lg critical = true ->
        crash_events w (Some lg) sig
        = [ev_log critical ("Server crashed with signal " +:+ to_string sig +:+ " ("
                            +:+ signal_name w sig +:+ ")");
           ev_flush; ev_signal sig SIG_DFL; ev_raise sig])
  /\ crash_events w None sig = [ev_signal sig SIG_DFL; ev_raise sig]
  /\ sig_default sig = act_core
  /\ (forall depth p,
        sigtable p !! sig = Some handler_SignalHandler ->
        sigmask p = [] ->
        sigpending p = [] ->
        deliver (SignalHandler w (S depth)) sig p
        = Killed sig (with_sigtable (emitted p (crash_events w (Log p) sig))
                                    (<[sig := SIG_DFL]> (sigtable p))))
  /\ (forall env rest,
        is_null (gst_rtsp_server_new w) = false ->
        exists p_run p_end,
          main w [] (process_start env) = Blocked p_run
          /\ main w (sig :: rest) (process_start env) = Killed sig p_end
          /\ sigtable p_end !! sig = Some SIG_DFL
          /\ main_loops p_end = main_loops p_run
          /\ events p_end
             = events p_run
               ++ [ev_log critical ("Server crashed with signal " +:+ to_string sig +:+ " ("
                                    +:+ signal_name w sig +:+ ")");
                   ev_flush; ev_signal sig SIG_DFL; ev_raise sig]).
Proof.
  intros sig. split.
  { intros depth p Hb. split; [by apply SignalHandler_crash_blocked|apply elem_of_pend]. }
  split.
  { intros lg Hlg. unfold crash_events, log_line. rewrite Hlg. subst sig. by destruct k. }
  split; [reflexivity|]. split; [subst sig; by destruct k|].
  split; [intros depth p; apply deliver_crash|].
  intros env rest Hsrv.
  destruct (main_serves w env Hsrv) as (c & es & _ & _ & Hmain).
  exists (serving w env c es), (crashed w env c es sig).
  split; [rewrite Hmain; unfold bind; by rewrite serving_blocked|].
  split.
  { rewrite Hmain. unfold bind at 1. subst sig. by rewrite serving_crash. }
  split; [apply lookup_insert_eq|]. split; reflexivity.
Qed.

Lemma crash_signal_terminates_process_witness :
  (exists p_handler,
     SignalHandler world_two_ports 1 SIGSEGV (with_sigmask process_logged [SIGSEGV])
     = Ret tt p_handler
     /\ sigpending p_handler = [SIGSEGV])
  /\ crash_events world_two_ports (Some rtsp_logger) SIGSEGV
     = [ev_log critical "Server crashed with signal 11 (Segmentation fault)";
        ev_flush; ev_signal SIGSEGV SIG_DFL; ev_raise SIGSEGV]
  /\ (exists p_end,
        deliver (SignalHandler world_two_ports 1) SIGSEGV
                (with_sigtable process_logged installed_table)
        = Killed SIGSEGV p_end
        /\ sigtable p_end !! SIGSEGV = Some SIG_DFL)
  /\ exists p_run p_end,
       main world_two_ports [] (process_start ∅) = Blocked p_run
       /\ main world_two_ports [SIGSEGV] (process_start ∅) = Killed SIGSEGV p_end
       /\ sigtable p_end !! SIGSEGV = Some SIG_DFL
       /\ main_loops p_end = main_loops p_run
       /\ events p_end
          = events p_run
            ++ [ev_log critical "Server crashed with signal 11 (Segmentation fault)";
                ev_flush; ev_signal SIGSEGV SIG_DFL; ev_raise SIGSEGV].
Proof.
  destruct (crash_signal_terminates_process world_two_ports crash_segv)
    as (Hret & Hlog & _ & _ & Hdel & Hmain).
  split; [|split; [|split]].
  - eexists. split.
    + exact (proj1 (Hret 0%nat (with_sigmask process_logged [SIGSEGV])
                      (list_elem_of_here SIGSEGV []))).
    + reflexivity.
  - exact (Hlog rtsp_logger eq_refl).
  - eexists. split.
    + exact (Hdel 0%nat (with_sigtable process_logged installed_table)
                  eq_refl eq_refl eq_refl).
    + reflexivity.
  - exact (Hmain ∅ [] eq_refl).
Defined.

(** C7.  When the logger has not been constructed the handler logs nothing
    and does not fault: for a crash-class signal it restores the default
    disposition and raises the signal, which stays pending while the handler
    returns when the signal is blocked, as it is when the process runs the
    handler, and ends the process at once when it is not; for a
    termination-class signal it returns, having quit the loop [g_mainLoop]
    points to.  Whatever the logger, when [g_mainLoop] is null the handler of
    a termination-class signal returns without quitting any loop. *)
Theorem handler_tolerates_missing_logger (w : world) (depth : nat) (p : process) :
  (Log p = None ->
   (forall k,
      exists p',
        (if bool_decide (crash_signal k ∈ sigmask p)
         then SignalHandler w (S depth) (crash_signal k) p = Ret tt p'
              /\ crash_signal k ∈ sigpending p'
         else SignalHandler w (S depth) (crash_signal k) p = Killed (crash_signal k) p')
        /\ events p' = events p ++ [ev_signal (crash_signal k) SIG_DFL;
                                    ev_raise (crash_signal k)]
        /\ sigtable p' !! crash_signal k = Some SIG_DFL)
   /\ (forall k,
         exists p',
           SignalHandler w (S depth) (termination_signal k) p = Ret tt p'
           /\ match g_mainLoop p with
              | Some l =>
                  events p' = events p ++ [ev_loop_quit l]
                  /\ main_loops p' = alter (fun _ => false) l (main_loops p)
              | None => p' = p
              end))
  /\ (g_mainLoop p = None ->
      forall k,
        exists p',
          SignalHandler w (S depth) (termination_signal k) p = Ret tt p'
          /\ main_loops p' = main_loops p
          /\ events p'
             = events p
               ++ match Log p with
                  | Some lg =>
                      log_line lg info "Received signal {} ({}), shutting down..."
                               [fmt.a_int (termination_signal k);
                                fmt.a_str (signal_name w (termination_signal k))]
                  | None => []
                  end).
Proof.
  split.
  - intros HL. split; intros k.
    + case_bool_decide as Hb.
      * rewrite SignalHandler_crash_blocked by exact Hb. cbv zeta. rewrite HL.
        eexists. split; [split; [reflexivity|apply elem_of_pend]|].
        split; [reflexivity|apply lookup_insert_eq].
      * rewrite SignalHandler_crash by exact Hb. cbv zeta. rewrite HL.
        eexists. split; [reflexivity|]. split; [reflexivity|apply lookup_insert_eq].
    + rewrite SignalHandler_termination. cbv zeta. rewrite HL.
      destruct (g_mainLoop p) as [l|].
      * eexists. split; [reflexivity|]. split; reflexivity.
      * eexists. split; [reflexivity|]. apply emitted_nil.
  - intros Hnull k. rewrite SignalHandler_termination. cbv zeta. rewrite Hnull.
    eexists. split; [reflexivity|]. split; [reflexivity|].
    unfold shutdown_events. cbn [events emitted with_events]. by rewrite app_nil_r.
Qed.

Lemma handler_tolerates_missing_logger_witness :
  (exists p',
     SignalHandler world_two_ports 1 SIGBUS (process_start ∅) = Killed SIGBUS p'
     /\ events p' = [ev_signal SIGBUS SIG_DFL; ev_raise SIGBUS]
     /\ sigtable p' !! SIGBUS = Some SIG_DFL)
  /\ (exists p',
        (SignalHandler world_two_ports 1 SIGBUS (with_sigmask (process_start ∅) [SIGBUS])
         = Ret tt p'
         /\ SIGBUS ∈ sigpending p')
        /\ events p' = [ev_signal SIGBUS SIG_DFL; ev_raise SIGBUS]
        /\ sigtable p' !! SIGBUS = Some SIG_DFL)
  /\ (exists p',
        SignalHandler world_two_ports 1 SIGINT (process_start ∅) = Ret tt p'
        /\ p' = process_start ∅)
  /\ (exists p',
        SignalHandler world_two_ports 1 SIGTERM process_logged = Ret tt p'
        /\ main_loops p' = main_loops process_logged
        /\ events p' = [ev_log info "Received signal 15 (Terminated), shutting down..."]).
Proof.
  destruct (handler_tolerates_missing_logger world_two_ports 0 process_logged)
    as [_ Hloop].
  destruct (handler_tolerates_missing_logger world_two_ports 0 (process_start ∅))
    as [Hlog _].
  destruct (Hlog eq_refl) as [Hcrash Hterm].
  destruct (handler_tolerates_missing_logger world_two_ports 0
              (with_sigmask (process_start ∅) [SIGBUS])) as [Hblocked _].
  split; [exact (Hcrash crash_bus)|].
  split; [exact (proj1 (Hblocked eq_refl) crash_bus)|].
  split; [exact (Hterm term_int)|].
  exact (Hloop eq_refl term_term).
Defined.

(** * Further properties of the program *)

(** ** DisableVaapi and SetupSignalHandlers *)

(** X1.  [DisableVaapi] returns; afterwards LIBVA_DRIVER_NAME holds the value
    it had, or null when it was unset, and no other variable has changed. *)
Theorem DisableVaapi_keeps_existing_value (p : process) :
  exists p',
    DisableVaapi p = Ret tt p'
    /\ environ p' !! "LIBVA_DRIVER_NAME"
       = Some (default "null" (environ p !! "LIBVA_DRIVER_NAME"))
    /\ (forall name, name <> "LIBVA_DRIVER_NAME" -> environ p' !! name = environ p !! name)
    /\ events p' = events p ++ [ev_setenv "LIBVA_DRIVER_NAME" "null"].
Proof.
  unfold DisableVaapi. rewrite setenv_run. eexists. split; [reflexivity|].
  cbn [environ emitted with_events with_environ events]. unfold setenv_environ.
  destruct (environ p !! "LIBVA_DRIVER_NAME") as [v|] eqn:Hv.
  - split; [exact Hv|]. split; [reflexivity|reflexivity].
  - split; [apply lookup_insert_eq|]. split; [|reflexivity].
    intros name Hne. by apply lookup_insert_ne.
Qed.

Lemma std_signal_lookup sig h p :
  exists p',
    std_signal sig h p = Ret tt p'
    /\ (forall s, sigtable p' !! s = if decide (sig = s) then Some h else sigtable p !! s).
Proof.
  eexists. split; [reflexivity|]. intros s.
  cbn [sigtable emit with_events with_sigtable]. apply lookup_insert.
Qed.

Lemma handled_spec sig :
  handled sig = true
  <-> sig = SIGSEGV \/ sig = SIGABRT \/ sig = SIGFPE \/ sig = SIGBUS \/ sig = SIGILL
      \/ sig = SIGINT \/ sig = SIGTERM.
Proof.
  unfold handled. rewrite bool_decide_eq_true, !elem_of_cons, elem_of_nil. tauto.
Qed.

(** X2.  After [SetupSignalHandlers] the table holds the handler for the five
    crash signals and the two termination signals, and every other signal
    has the disposition it had before. *)
Theorem SetupSignalHandlers_installs_seven (p : process) :
  exists p',
    SetupSignalHandlers p = Ret tt p'
    /\ forall sig,
         sigtable p' !! sig
         = if handled sig then Some handler_SignalHandler else sigtable p !! sig.
Proof.
  unfold SetupSignalHandlers.
  destruct (std_signal_lookup SIGSEGV handler_SignalHandler p) as (p1 & E1 & H1).
  destruct (std_signal_lookup SIGABRT handler_SignalHandler p1) as (p2 & E2 & H2).
  destruct (std_signal_lookup SIGFPE handler_SignalHandler p2) as (p3 & E3 & H3).
  destruct (std_signal_lookup SIGBUS handler_SignalHandler p3) as (p4 & E4 & H4).
  destruct (std_signal_lookup SIGILL handler_SignalHandler p4) as (p5 & E5 & H5).
  destruct (std_signal_lookup SIGINT handler_SignalHandler p5) as (p6 & E6 & H6).
  destruct (std_signal_lookup SIGTERM handler_SignalHandler p6) as (p7 & E7 & H7).
  exists p7. split.
  - erewrite bind_Ret by exact E1. erewrite bind_Ret by exact E2.
    erewrite bind_Ret by exact E3. erewrite bind_Ret by exact E4.
    erewrite bind_Ret by exact E5. erewrite bind_Ret by exact E6. exact E7.
  - intros sig. rewrite H7, H6, H5, H4, H3, H2, H1.
    destruct (handled sig) eqn:Hh.
    + apply handled_spec in Hh. repeat case_decide; try reflexivity.
      exfalso. intuition congruence.
    + repeat case_decide; try reflexivity; subst sig; discriminate.
Qed.

(** ** The handler on any signal *)

Lemma crash_test_true sig :
  (sig =? SIGSEGV) || (sig =? SIGABRT) || (sig =? SIGFPE)
  || (sig =? SIGBUS) || (sig =? SIGILL) = true ->
  exists k, sig = crash_signal k.
Proof.
  rewrite !orb_true_iff, !Z.eqb_eq. intros [[[[H|H]|H]|H]|H].
  - by exists crash_segv.
  - by exists crash_abrt.
  - by exists crash_fpe.
  - by exists crash_bus.
  - by exists crash_ill.
Qed.

Lemma termination_test_true sig :
  (sig =? SIGINT) || (sig =? SIGTERM) = true -> exists k, sig = termination_signal k.
Proof.
  rewrite orb_true_iff, !Z.eqb_eq. intros [H|H].
  - by exists term_int.
  - by exists term_term.
Qed.

(** The nesting budget plays no part: the handler raises a signal only
    after it has set it back to [SIG_DFL], so it never re-enters itself. *)
Lemma SignalHandler_depth w depth sig p :
  SignalHandler w (S depth) sig p = SignalHandler w 1 sig p.
Proof.
  destruct ((sig =? SIGSEGV) || (sig =? SIGABRT) || (sig =? SIGFPE)
            || (sig =? SIGBUS) || (sig =? SIGILL)) eqn:Hc.
  - destruct (crash_test_true sig Hc) as [k ->].
    destruct (decide (crash_signal k ∈ sigmask p)) as [Hb|Hb].
    + by rewrite !SignalHandler_crash_blocked.
    + by rewrite !SignalHandler_crash.
  - cbn [SignalHandler]. by rewrite Hc.
Qed.

Lemma handled_tests sig :
  handled sig
  = ((sig =? SIGSEGV) || (sig =? SIGABRT) || (sig =? SIGFPE)
     || (sig =? SIGBUS) || (sig =? SIGILL))
    || ((sig =? SIGINT) || (sig =? SIGTERM)).
Proof.
  apply eq_true_iff_eq. rewrite handled_spec, !orb_true_iff, !Z.eqb_eq. tauto.
Qed.

Lemma SignalHandler_unhandled w depth sig p :
  handled sig = false -> SignalHandler w (S depth) sig p = Ret tt p.
Proof.
  rewrite handled_tests. intros [Hc Ht]%orb_false_iff.
  cbn [SignalHandler]. by rewrite Hc, Ht.
Qed.

(** X3.  For a signal that is neither crash-class nor termination-class the
    handler returns at once and leaves the process as it was: nothing is
    logged, no disposition is changed, no loop is quit. *)
Theorem SignalHandler_other_signal
    (w : world) (depth : nat) (sig : Z) (p : process) :
  handled sig = false ->
  SignalHandler w (S depth) sig p = Ret tt p.
Proof. apply SignalHandler_unhandled. Qed.

Lemma SignalHandler_other_signal_witness :
  SignalHandler world_two_ports 1 1 process_logged = Ret tt process_logged.
Proof.
  exact (SignalHandler_other_signal world_two_ports 0 1 process_logged eq_refl).
Defined.

(** X4.  Whatever the signal and the state of the globals, the handler
    either returns or ends the process by the signal it was given: it never
    dereferences a null pointer.  It leaves [Log], [g_mainLoop] and the
    environment alone, only appends to the trace, changes no disposition but
    that of its own signal, and no loop but the one [g_mainLoop] points to. *)
Theorem SignalHandler_frame (w : world) (depth : nat) (sig : Z) (p : process) :
  exists p',
    (SignalHandler w (S depth) sig p = Ret tt p'
     \/ SignalHandler w (S depth) sig p = Killed sig p')
    /\ Log p' = Log p
    /\ g_mainLoop p' = g_mainLoop p
    /\ environ p' = environ p
    /\ (exists es, events p' = events p ++ es)
    /\ (forall s, s <> sig -> sigtable p' !! s = sigtable p !! s)
    /\ (forall l, g_mainLoop p <> Some l -> main_loops p' !! l = main_loops p !! l).
Proof.
  destruct ((sig =? SIGSEGV) || (sig =? SIGABRT) || (sig =? SIGFPE)
            || (sig =? SIGBUS) || (sig =? SIGILL)) eqn:Hc.
  - destruct (crash_test_true sig Hc) as [k ->].
    destruct (decide (crash_signal k ∈ sigmask p)) as [Hb|Hb].
    + rewrite SignalHandler_crash_blocked by exact Hb. cbv zeta.
      eexists. split; [left; reflexivity|].
      split; [reflexivity|]. split; [reflexivity|]. split; [reflexivity|].
      split; [by eexists|]. split; [|reflexivity].
      intros s Hs. cbn [sigtable with_sigtable with_sigpending].
      by apply lookup_insert_ne.
    + rewrite SignalHandler_crash by exact Hb. cbv zeta.
      eexists. split; [right; reflexivity|].
      split; [reflexivity|]. split; [reflexivity|]. split; [reflexivity|].
      split; [by eexists|]. split; [|reflexivity].
      intros s Hs. cbn [sigtable with_sigtable]. by apply lookup_insert_ne.
  - destruct ((sig =? SIGINT) || (sig =? SIGTERM)) eqn:Ht.
    + destruct (termination_test_true sig Ht) as [k ->].
      rewrite SignalHandler_termination. cbv zeta.
      destruct (g_mainLoop p) as [l0|] eqn:Hl.
      * eexists. split; [left; reflexivity|].
        split; [reflexivity|]. split; [exact Hl|]. split; [reflexivity|].
        split; [by eexists|]. split; [reflexivity|].
        intros l Hne. cbn [main_loops with_main_loops].
        apply lookup_alter_ne. congruence.
      * eexists. split; [left; reflexivity|].
        split; [reflexivity|]. split; [exact Hl|]. split; [reflexivity|].
        split; [by eexists|]. split; reflexivity.
    + exists p. split; [left; apply SignalHandler_unhandled;
                         by rewrite handled_tests, Hc, Ht|].
      split; [reflexivity|]. split; [reflexivity|]. split; [reflexivity|].
      split; [exists []; by rewrite app_nil_r|]. split; reflexivity.
Qed.

(** ** The whole run of main *)




(** What [LoadConfig] returns where [main] calls it. *)
Lemma LoadConfig_resolved w env :
  exists c es,
    LoadConfig w Config_default (config_entry env) = Ret c (emitted (config_entry env) es)
    /\ forallb config_event es = true
    /\ port_ok c
    /\ port c = resolved_port w.
Proof.
  destruct (LoadConfig_frame w rtsp_logger Config_default (config_entry env) eq_refl)
    as (c & es & HLoad & Hes & Hok).
  exists c, es. split; [exact HLoad|]. split; [exact Hes|].
  split; [apply Hok; unfold port_ok, Config_default; simpl; lia|].
  unfold resolved_port. unfold LoadConfig in HLoad.
  destruct (existsb (parse_fails w) (ConfigDirs w)) eqn:Hex.
  - case_bool_decide as Hnil; [by rewrite Hnil in Hex|].
    destruct (LoadConfig_loop_parse_failure w rtsp_logger (ConfigDirs w) Config_default
                (config_entry env) eq_refl Hex) as (p' & Hl).
    erewrite bind_Ret in HLoad by exact Hl. by injection HLoad as <- _.
  - case_bool_decide as Hnil.
    + injection HLoad as <- _. by rewrite Hnil.
    + destruct (LoadConfig_loop_last_valid w rtsp_logger (ConfigDirs w) Config_default
                  (config_entry env) eq_refl Hex) as (p' & Hl).
      erewrite bind_Ret in HLoad by exact Hl. by injection HLoad as <- _.
Qed.



Lemma services_config es : forallb config_event es = true -> services es = [].
Proof.
  induction es as [|e es IH]; [reflexivity|].
  cbn [forallb]. intros [He Hes]%andb_true_iff.
  unfold services in *. cbn [omap list_omap].
  destruct e as [lvl line| | | | | | | | | | | | |]; try discriminate; by apply IH.
Qed.

(** X6.  With the server constructed, [main] sets exactly one service on the
    server: the decimal form of the port resolved from the configuration
    directories, which lies strictly between 0 and 65535; the start line it
    logs names the same port. *)
Theorem main_serves_on_resolved_port (w : world) (env : gmap string string) :
  is_null (gst_rtsp_server_new w) = false ->
  exists p,
    main w [] (process_start env) = Blocked p
    /\ 0 < resolved_port w < 65535
    /\ services (events p) = [to_string (resolved_port w)]
    /\ (info, "Server started successfully on port " +:+ to_string (resolved_port w))
       ∈ log_lines (events p).
Proof.
  intros Hsrv.
  destruct (LoadConfig_resolved w env) as (c & es & HLoad & Hes & Hok & Hport).
  exists (serving w env c es). split.
  { rewrite (main_startup w env c es [] Hsrv HLoad). unfold bind.
    by rewrite serving_blocked. }
  split; [by rewrite <- Hport|].
  cbn [events serving]. unfold startup_events. rewrite <- Hport. split.
  - unfold services. rewrite !omap_app. fold (services es).
    rewrite (services_config es Hes). reflexivity.
  - unfold log_lines. rewrite !omap_app. rewrite !elem_of_app. right. right. right.
    cbn [omap list_omap registration]. set_solver.
Qed.

Lemma main_serves_on_resolved_port_witness :
  exists p,
    main world_malformed_second [] (process_start ∅) = Blocked p
    /\ services (events p) = ["9554"].
Proof.
  destruct (main_serves_on_resolved_port world_malformed_second ∅ eq_refl)
    as (p & Hmain & _ & Hsvc & _).
  exists p. split; [exact Hmain|exact Hsvc].
Defined.

(** X5.  When the server cannot be constructed, [main] logs the error and
    returns -1, which the parent sees as status 255, whatever signals are
    pending: no service is set, no factory is registered, no main loop is
    created. *)
Theorem null_server_is_fatal
    (w : world) (env : gmap string string) (signals : list Z) :
  gst_rtsp_server_new w = None ->
  exists p,
    main w signals (process_start env) = Ret (-1) p
    /\ exit_status (-1) = 255
    /\ last (events p) = Some (ev_log err "Fail to create rtsp server")
    /\ services (events p) = []
    /\ registrations (events p) = []
    /\ g_mainLoop p = None
    /\ main_loops p = ∅.
Proof.
  intros Hsrv.
  destruct (main_null_server w env signals Hsrv) as (es & Hes & Hmain).
  eexists. split; [exact Hmain|]. split; [reflexivity|].
  cbn [events g_mainLoop main_loops]. split.
  { rewrite !app_assoc.
    change (?l ++ [ev_setenv "LIBVA_DRIVER_NAME" "null"; ev_gst_init;
                   ev_log err "Fail to create rtsp server"])
      with (l ++ [ev_setenv "LIBVA_DRIVER_NAME" "null"; ev_gst_init]
              ++ [ev_log err "Fail to create rtsp server"]).
    rewrite app_assoc. apply last_snoc. }
  split.
  { unfold services. rewrite !omap_app. fold (services es).
    by rewrite (services_config es Hes). }
  split; [|split; reflexivity].
  unfold registrations. rewrite !List.filter_app. fold (registrations es).
  by rewrite (registrations_config es Hes).
Qed.

Lemma null_server_is_fatal_witness :
  exists p,
    main (example_world [dirA] [(conf_file dirA, port_file 8080)] None None)
         [SIGINT] (process_start ∅) = Ret (-1) p
    /\ exit_status (-1) = 255
    /\ last (events p) = Some (ev_log err "Fail to create rtsp server")
    /\ services (events p) = []
    /\ registrations (events p) = []
    /\ g_mainLoop p = None
    /\ main_loops p = ∅.
Proof.
  exact (null_server_is_fatal
           (example_world [dirA] [(conf_file dirA, port_file 8080)] None None)
           ∅ [SIGINT] eq_refl).
Defined.

(** X12.  On both paths of [main], with or without a server, the trace up to
    the initialisation of GStreamer is: the seven handler installations, the
    start line, the events of [LoadConfig], then [setenv] and directly after
    it [gst_init]; and LIBVA_DRIVER_NAME is set from then on, to the value
    inherited or to null. *)
Theorem DisableVaapi_precedes_gst_init (w : world) (env : gmap string string) :
  exists p es post,
    (main w [] (process_start env) = Blocked p
     \/ main w [] (process_start env) = Ret (-1) p)
    /\ forallb config_event es = true
    /\ events p
       = handlers_installed
         ++ [ev_log info "=== RTSP Test Server starting ==="]
         ++ es
         ++ [ev_setenv "LIBVA_DRIVER_NAME" "null"; ev_gst_init]
         ++ post
    /\ environ p !! "LIBVA_DRIVER_NAME"
       = Some (default "null" (env !! "LIBVA_DRIVER_NAME")).
Proof.
  assert (Henv : setenv_environ env "LIBVA_DRIVER_NAME" "null" false
                 !! "LIBVA_DRIVER_NAME"
                 = Some (default "null" (env !! "LIBVA_DRIVER_NAME"))).
  { unfold setenv_environ.
    destruct (env !! "LIBVA_DRIVER_NAME") as [v|] eqn:Hv; [exact Hv|].
    apply lookup_insert_eq. }
  destruct (gst_rtsp_server_new w) as [srv|] eqn:Hsrv.
  - destruct (LoadConfig_resolved w env) as (c & es & HLoad & Hes & _ & _).
    exists (serving w env c es), es. eexists. split.
    { left. rewrite (main_startup w env c es []) by (by rewrite ?Hsrv).
      unfold bind. by rewrite serving_blocked. }
    split; [exact Hes|]. split; [|exact Henv].
    cbn [events serving]. unfold startup_events. reflexivity.
  - destruct (main_null_server w env [] Hsrv) as (es & Hes & Hmain).
    eexists _, es, _. split; [right; exact Hmain|]. split; [exact Hes|].
    split; [|exact Henv]. cbn [events]. reflexivity.
Qed.

(** ** More on LoadConfig *)

(** X13.  With the logger constructed [LoadConfig] always returns; it leaves
    the process as it was but for the trace, to which it adds only file
    tests, file reads and log lines at error level. *)
Theorem LoadConfig_returns_with_logger
    (w : world) (lg : logger) (config : Config) (p : process) :
  Log p = Some lg ->
  exists config' es,
    LoadConfig w config p = Ret config' (emitted p es)
    /\ forallb config_event es = true.
Proof.
  intros HL.
  destruct (LoadConfig_frame w lg config p HL) as (c' & es & Hl & Hes & _).
  by exists c', es.
Qed.

Lemma LoadConfig_returns_with_logger_witness :
  exists config' es,
    LoadConfig world_malformed_second Config_default process_logged
    = Ret config' (emitted process_logged es)
    /\ forallb config_event es = true.
Proof.
  exact (LoadConfig_returns_with_logger world_malformed_second rtsp_logger
           Config_default process_logged eq_refl).
Defined.

Lemma LoadConfig_loop_no_logger w dirs : forall c p,
  Log p = None ->
  existsb (fun d => g_file_test_is_regular w (conf_file d)) dirs = true ->
  exists p', LoadConfig_loop w dirs c p = Fault p'.
Proof.
  induction dirs as [|d rest IH]; intros c p HL Hex; [discriminate|].
  cbn [existsb] in Hex. cbn [LoadConfig_loop].
  destruct (g_file_test_is_regular w (conf_file d)) eqn:Hreg.
  - unfold LoadConfig_body. fold (conf_file d).
    unfold bind at 1. erewrite bind_Ret by apply g_file_test_run.
    rewrite Hreg. cbn [negb]. unfold bind at 1. unfold log_ at 1.
    cbn [Log emitted with_events]. rewrite HL. by eexists.
  - erewrite bind_Ret by (by apply body_missing). by apply IH.
Qed.

(** X11.  [LoadConfig] uses the logger without testing it: when the logger
    has not been constructed and some directory holds a regular
    configuration file, the call dereferences the null [Log]. *)
Theorem LoadConfig_needs_logger (w : world) (config : Config) (p : process) :
  Log p = None ->
  existsb (fun d => g_file_test_is_regular w (conf_file d)) (ConfigDirs w) = true ->
  exists p', LoadConfig w config p = Fault p'.
Proof.
  intros HL Hex. unfold LoadConfig. case_bool_decide as Hnil.
  - rewrite Hnil in Hex. discriminate.
  - destruct (LoadConfig_loop_no_logger w (ConfigDirs w) config p HL Hex) as (p' & Hl).
    exists p'. unfold bind. by rewrite Hl.
Qed.

Lemma LoadConfig_needs_logger_witness :
  exists p', LoadConfig world_two_ports Config_default (process_start ∅) = Fault p'.
Proof.
  exact (LoadConfig_needs_logger world_two_ports Config_default (process_start ∅)
           eq_refl eq_refl).
Defined.

(** X9.  A file that parses and holds an integer [port] sets the port exactly
    when the value is in 1..65534; 0, negative values, 65535 and larger
    values leave the accumulated port as it was.  An accepted value is stored
    unchanged by the conversion to the 16-bit field. *)
Theorem port_accepted_iff_in_range
    (w : world) (lg : logger) (d : string) (loadedConfig : Config)
    (p : process) (doc : config_t) (v : Z) :
  Log p = Some lg ->
  g_file_test_is_regular w (conf_file d) = true ->
  libconfig_parse w (conf_file d) = read_ok doc ->
  config_lookup_int doc "port" = Some v ->
  exists p',
    LoadConfig_body w d loadedConfig p
    = Ret (flow_next {| port := if bool_decide (1 <= v <= 65534) then v
                                else port loadedConfig |}) p'.
Proof.
  intros HL Hreg Hrd Hlk. case_bool_decide as Hv.
  - erewrite body_port_valid by (done || lia). by eexists.
  - erewrite body_port_invalid by (done || lia). destruct loadedConfig. by eexists.
Qed.

Lemma port_accepted_iff_in_range_witness :
  (exists p',
     LoadConfig_body (example_world [dirA] [(conf_file dirA, port_file 65534)] None None)
                     dirA Config_default process_logged
     = Ret (flow_next {| port := 65534 |}) p')
  /\ (exists p',
        LoadConfig_body (example_world [dirA] [(conf_file dirA, port_file 65535)] None None)
                        dirA Config_default process_logged
        = Ret (flow_next {| port := 9554 |}) p')
  /\ (exists p',
        LoadConfig_body (example_world [dirA] [(conf_file dirA, port_file 0)] None None)
                        dirA Config_default process_logged
        = Ret (flow_next {| port := 9554 |}) p').
Proof.
  split; [|split].
  - exact (port_accepted_iff_in_range
             (example_world [dirA] [(conf_file dirA, port_file 65534)] None None)
             rtsp_logger dirA Config_default process_logged
             [("port", s_int 65534)] 65534 eq_refl eq_refl eq_refl eq_refl).
  - exact (port_accepted_iff_in_range
             (example_world [dirA] [(conf_file dirA, port_file 65535)] None None)
             rtsp_logger dirA Config_default process_logged
             [("port", s_int 65535)] 65535 eq_refl eq_refl eq_refl eq_refl).
  - exact (port_accepted_iff_in_range
             (example_world [dirA] [(conf_file dirA, port_file 0)] None None)
             rtsp_logger dirA Config_default process_logged
             [("port", s_int 0)] 0 eq_refl eq_refl eq_refl eq_refl).
Defined.

(** X10.  A file that parses but holds no integer [port] (the key is absent,
    or its value is not an integer) is passed over without complaint: the
    accumulated configuration is handed on and the trace shows the file
    test, the loading line and the read, with no error about the port. *)
Theorem file_without_integer_port
    (w : world) (lg : logger) (d : string) (loadedConfig : Config)
    (p : process) (doc : config_t) :
  Log p = Some lg ->
  should_log lg err = true ->
  g_file_test_is_regular w (conf_file d) = true ->
  libconfig_parse w (conf_file d) = read_ok doc ->
  config_lookup_int doc "port" = None ->
  LoadConfig_body w d loadedConfig p
  = Ret (flow_next loadedConfig)
        (emitted p [ev_file_test (conf_file d);
                    ev_log err ("Loading config " +:+ dquote +:+ conf_file d +:+ dquote);
                    ev_read_file (conf_file d)]).
Proof.
  intros HL Hlvl Hreg Hrd Hlk. erewrite body_no_port by done.
  unfold loading_events, log_line. by rewrite Hlvl.
Qed.

Lemma file_without_integer_port_witness :
  LoadConfig_body
    (example_world [dirA]
       [(conf_file dirA, read_ok [("verbose", s_bool true); ("port", s_string "8080")])]
       None None)
    dirA Config_default process_logged
  = Ret (flow_next Config_default)
        (emitted process_logged
           [ev_file_test (conf_file dirA);
            ev_log err ("Loading config " +:+ dquote +:+ conf_file dirA +:+ dquote);
            ev_read_file (conf_file dirA)]).
Proof.
  exact (file_without_integer_port
           (example_world [dirA]
              [(conf_file dirA,
                read_ok [("verbose", s_bool true); ("port", s_string "8080")])]
              None None)
           rtsp_logger dirA Config_default process_logged
           [("verbose", s_bool true); ("port", s_string "8080")]
           eq_refl eq_refl eq_refl eq_refl eq_refl).
Defined.

Lemma log_line_no_file lg lvl f args :
  file_tests (log_line lg lvl f args) = [] /\ file_reads (log_line lg lvl f args) = [].
Proof.
  unfold log_line. destruct (should_log lg lvl); [destruct (fmt.format f args)|]; done.
Qed.

Lemma loading_events_files lg d :
  file_tests (loading_events lg d) = [conf_file d]
  /\ file_reads (loading_events lg d) = [conf_file d].
Proof.
  unfold loading_events, file_tests, file_reads. rewrite !omap_app.
  destruct (log_line_no_file lg err ("Loading config " +:+ dquote +:+ "{}" +:+ dquote)
              [fmt.a_str (conf_file d)]) as [Ht Hr].
  unfold file_tests in Ht. unfold file_reads in Hr. by rewrite Ht, Hr.
Qed.

(** One turn tests its own file once, reads it when it is regular, and
    leaves by [return] exactly when the file fails to parse. *)
Lemma LoadConfig_body_consults w lg d c p :
  Log p = Some lg ->
  exists f es,
    LoadConfig_body w d c p = Ret f (emitted p es)
    /\ file_tests es = [conf_file d]
    /\ file_reads es = (if g_file_test_is_regular w (conf_file d) then [conf_file d] else [])
    /\ (if parse_fails w d then f = flow_return else exists c', f = flow_next c').
Proof.
  intros HL. unfold parse_fails.
  destruct (loading_events_files lg d) as [Ht Hr].
  destruct (g_file_test_is_regular w (conf_file d)) eqn:Hreg; cbn [andb].
  - destruct (libconfig_parse w (conf_file d)) as [doc|text line] eqn:Hrd.
    + destruct (config_lookup_int doc "port") as [v|] eqn:Hlk.
      * destruct (decide (0 < v < 65535)) as [Hv|Hv].
        -- eexists _, _. split; [by eapply body_port_valid|]. by eauto.
        -- eexists _, _. split; [by eapply body_port_invalid|].
           destruct (log_line_no_file lg err "Invalid port value" []) as [Ht' Hr'].
           unfold file_tests, file_reads in *. rewrite !omap_app, Ht, Hr, Ht', Hr'.
           by eauto.
      * eexists _, _. split; [by eapply body_no_port|]. by eauto.
    + eexists _, _. split; [by eapply body_parse_error|].
      destruct (log_line_no_file lg err "Fail load config. {}. {}:{}"
                  [fmt.a_str text; fmt.a_str (conf_file d); fmt.a_int line]) as [Ht' Hr'].
      unfold failure_events, file_tests, file_reads in *.
      by rewrite !omap_app, Ht, Hr, Ht', Hr'.
  - eexists _, _. split; [by apply body_missing|]. by eauto.
Qed.

Lemma LoadConfig_loop_consults w lg dirs : forall c p,
  Log p = Some lg ->
  exists f es,
    LoadConfig_loop w dirs c p = Ret f (emitted p es)
    /\ file_tests es = map conf_file (consulted w dirs)
    /\ file_reads es
       = map conf_file
             (List.filter (fun d => g_file_test_is_regular w (conf_file d))
                          (consulted w dirs)).
Proof.
  induction dirs as [|d rest IH]; intros c p HL.
  - exists (flow_next c), []. by rewrite emitted_nil.
  - destruct (LoadConfig_body_consults w lg d c p HL) as (f & es & Hb & Ht & Hr & Hf).
    cbn [LoadConfig_loop consulted]. erewrite bind_Ret by exact Hb.
    destruct (parse_fails w d) eqn:Hd.
    + subst f. exists flow_return, es. split; [reflexivity|].
      cbn [List.filter map]. rewrite Ht, Hr.
      by destruct (g_file_test_is_regular w (conf_file d)).
    + destruct Hf as [c1 ->].
      destruct (IH c1 (emitted p es) HL) as (f' & es' & Hl & Ht' & Hr').
      exists f', (es ++ es'). rewrite Hl, emitted_app. split; [reflexivity|].
      unfold file_tests, file_reads in *. rewrite !omap_app, Ht, Hr, Ht', Hr'.
      cbn [List.filter map].
      by destruct (g_file_test_is_regular w (conf_file d)).
Qed.

(** X8.  [LoadConfig] goes through the directories in the order of the list,
    up to and including the first whose file fails to parse: it tests the
    file of each of these directories once, in that order, reads the ones
    that are regular files, and touches no directory after the failure. *)
Theorem LoadConfig_consults_in_order
    (w : world) (lg : logger) (config : Config) (p : process) :
  Log p = Some lg ->
  exists config' es,
    LoadConfig w config p = Ret config' (emitted p es)
    /\ file_tests es = map conf_file (consulted w (ConfigDirs w))
    /\ file_reads es
       = map conf_file
             (List.filter (fun d => g_file_test_is_regular w (conf_file d))
                          (consulted w (ConfigDirs w))).
Proof.
  intros HL. unfold LoadConfig. case_bool_decide as Hnil.
  - rewrite Hnil. exists config, []. by rewrite emitted_nil.
  - destruct (LoadConfig_loop_consults w lg (ConfigDirs w) config p HL)
      as (f & es & Hl & Ht & Hr).
    erewrite bind_Ret by exact Hl.
    destruct f as [c1|]; [by exists c1, es | by exists config, es].
Qed.

Lemma LoadConfig_consults_in_order_witness :
  exists config' es,
    LoadConfig world_malformed_second Config_default process_logged
    = Ret config' (emitted process_logged es)
    /\ file_tests es = [conf_file dirA; conf_file dirB]
    /\ file_reads es = [conf_file dirA; conf_file dirB].
Proof.
  exact (LoadConfig_consults_in_order world_malformed_second rtsp_logger
           Config_default process_logged eq_refl).
Defined.

(** ** A shutdown request ahead of the loop *)

(** X14.  A termination-class signal handled after [g_mainLoop] has been set
    but before [g_main_loop_run] is called does not stop the server: the
    handler clears the running flag of the loop, [g_main_loop_run] sets it
    again on entry, and with no further signal the call does not return. *)
Theorem shutdown_request_before_run_is_lost
    (w : world) (depth : nat) (k : termination_class) (p : process)
    (l : nat) (running : bool) :
  g_mainLoop p = Some l ->
  main_loops p !! l = Some running ->
  exists p1 p2,
    SignalHandler w (S depth) (termination_signal k) p = Ret tt p1
    /\ main_loops p1 !! l = Some false
    /\ g_main_loop_run w l [] p1 = Blocked p2
    /\ main_loops p2 !! l = Some true
    /\ events p2 = events p1 ++ [ev_loop_run l].
Proof.
  intros Hl Hrun. rewrite SignalHandler_termination. cbv zeta. rewrite Hl.
  eexists _, _. split; [reflexivity|].
  assert (Hoff : alter (fun _ : bool => false) l (main_loops p) !! l = Some false).
  { by rewrite lookup_alter_eq, Hrun. }
  split; [exact Hoff|].
  unfold g_main_loop_run, bind. rewrite emit_emitted.
  cbn [main_loop_iterate main_loops emitted with_events with_main_loops].
  assert (Hon : alter (fun _ : bool => true) l
                      (alter (fun _ : bool => false) l (main_loops p)) !! l = Some true).
  { by rewrite lookup_alter_eq, Hoff. }
  rewrite Hon. split; [reflexivity|]. split; [exact Hon|reflexivity].
Qed.

Lemma shutdown_request_before_run_is_lost_witness :
  exists p1 p2,
    SignalHandler world_two_ports 1 SIGINT
      (with_g_mainLoop (with_main_loops process_logged {[ 0%nat := false ]}) (Some 0%nat))
    = Ret tt p1
    /\ main_loops p1 !! 0%nat = Some false
    /\ g_main_loop_run world_two_ports 0 [] p1 = Blocked p2
    /\ main_loops p2 !! 0%nat = Some true
    /\ events p2 = events p1 ++ [ev_loop_run 0].
Proof.
  exact (shutdown_request_before_run_is_lost world_two_ports 0 term_int
           (with_g_mainLoop (with_main_loops process_logged {[ 0%nat := false ]})
                            (Some 0%nat))
           0%nat false eq_refl eq_refl).
Defined.
